(** * logtap: the search filter, the tail reader, validation, level parsing,
      format detection and the [/logs] query route.

    The development embeds [src/logtap/core/search.py] and
    [src/logtap/api/routes/logs.py] as Rocq functions.  Python exceptions are
    values of [exn] threaded through the [result] monad; the standard-library
    functions the code calls ([re.compile], [Pattern.search], [str.lower]) are
    the fields of the class [PythonLib].  Modules of the package whose text is
    not part of the sources at hand ([core/reader.py], [core/validation.py],
    [core/parsers/base.py], [core/parsers/auto.py]) are modelled from the
    specification and marked as such. *)

From Stdlib Require Import String Ascii List Bool Arith ZArith Lia.
Import ListNotations.

Local Open Scope list_scope.
Local Open Scope string_scope.

(** ** Python values, exceptions and the result monad *)

Module Py.

(** The exceptions that appear in the modelled code.  [re_error] is
    [re.error]; [HTTPException] is FastAPI's, with its status code and detail;
    [OtherError] stands for any other exception class, by name. *)
Inductive exn : Type :=
| re_error
| HTTPException (status_code : Z) (detail : string)
| OtherError (name : string).

Inductive result (A : Type) : Type :=
| Return (a : A)
| Raise (e : exn).

Arguments Return {A} a.
Arguments Raise {A} e.

Definition bind {A B : Type} (m : result A) (k : A -> result B) : result B :=
  match m with
  | Return a => k a
  | Raise e => Raise e
  end.

(** [try: body except cls: handler] *)
Definition try_except {A : Type} (body : result A) (cls : exn -> bool)
  (handler : result A) : result A :=
  match body with
  | Return a => Return a
  | Raise e => if cls e then handler else Raise e
  end.

Definition is_re_error (e : exn) : bool :=
  match e with
  | re_error => true
  | _ => false
  end.

(** Truth value of a [str]: only the empty string is falsy. *)
Definition str_truthy (s : string) : bool :=
  match s with
  | EmptyString => false
  | String _ _ => true
  end.

(** Truth value of an [Optional[str]]: [None] and [""] are falsy. *)
Definition truthy (o : option string) : bool :=
  match o with
  | None => false
  | Some s => str_truthy s
  end.

(** [t in l] on strings: [t] occurs in [l] as a contiguous substring. *)
Fixpoint str_in (t l : string) : bool :=
  String.prefix t l ||
  match l with
  | EmptyString => false
  | String _ l' => str_in t l'
  end.

(** [t] occurs in [l]: some text before it and some text after it make up
    [l]. *)
Definition occurs (t l : string) : Prop :=
  exists pre post : string, l = pre ++ t ++ post.

(** [len(s)] *)
Definition len (s : string) : Z := Z.of_nat (String.length s).

(** [s.startswith(p)] *)
Definition startswith (p s : string) : bool := String.prefix p s.

(** [s.endswith(p)] for a one-character [p]. *)
Fixpoint endswith_char (c : ascii) (s : string) : bool :=
  match s with
  | EmptyString => false
  | String a EmptyString => Ascii.eqb a c
  | String _ s' => endswith_char c s'
  end.

(** [c in s] for a one-character [c]. *)
Fixpoint char_in (c : ascii) (s : string) : bool :=
  match s with
  | EmptyString => false
  | String a s' => Ascii.eqb a c || char_in c s'
  end.

(** Lowering of the ASCII letters, and [str.lower] on ASCII text. *)
Definition ascii_lower (c : ascii) : ascii :=
  let n := nat_of_ascii c in
  if (65 <=? n)%nat && (n <=? 90)%nat then ascii_of_nat (n + 32) else c.

Fixpoint lower (s : string) : string :=
  match s with
  | EmptyString => EmptyString
  | String c s' => String (ascii_lower c) (lower s')
  end.

(** [re.IGNORECASE] *)
Definition IGNORECASE : Z := 2.

End Py.

Import Py.

Declare Scope result_scope.
Delimit Scope result_scope with result.
Notation "x <- m ;; k" := (bind m (fun x => k))
  (at level 61, m at next level, right associativity) : result_scope.
Local Open Scope result_scope.

(** The library functions [search.py] calls.  [re_compile r flags] is
    [re.compile(r, flags)]: it returns a compiled pattern or raises;
    [re_search p line] is the truth value of [p.search(line)]; [str_lower] is
    [str.lower].  The one fact about [re] the development relies on is that
    the empty pattern compiles. *)
Class PythonLib : Type := {
  Pattern : Type;
  re_compile : string -> Z -> result Pattern;
  re_search : Pattern -> string -> bool;
  str_lower : string -> string;
  re_compile_empty : forall flags, exists p, re_compile "" flags = Return p
}.

(** ** A concrete library for running the code

    [Fragment] implements the part of [re] syntax that the repository's tests
    use, read left to right as [re] reads it: literal characters, [.], a
    postfix [*] and a counted repeat [{n}].  As in [re], a [*] with nothing
    to repeat, a repeat of a repeat and a character set that is never closed
    are pattern errors, and a repeat count of [MAXREPEAT] or more is an
    [OverflowError], which is not a pattern error.  Syntax outside the
    fragment is not interpreted: [outside_fragment] marks it, and nothing
    below is run on such a pattern.  [str.lower] is the ASCII lowering.  The
    theorems hold for every [PythonLib]; this one is used to run examples. *)

Module Fragment.

Inductive atom : Type :=
| Lit (c : ascii)
| Dot.

Record item : Type := mkItem { it_atom : atom; it_star : bool }.

Definition is_meta (c : ascii) : bool := char_in c "\()[]{}+?|^$".

(** [_sre.MAXREPEAT] *)
Definition MAXREPEAT : N := 4294967295.

Definition outside_fragment {A : Type} : result A :=
  Raise (OtherError "outside the fragment").

Definition digit_of (c : ascii) : option N :=
  let n := N_of_ascii c in
  if (48 <=? n)%N && (n <=? 57)%N then Some (n - 48)%N else None.

(** After an opening bracket: an optional [^], then a first [\]] that counts
    as a member; the set is never closed when no [\]] follows. *)
Definition unterminated_set (rest : string) : bool :=
  let members := match rest with
                 | String "^" r => r
                 | _ => rest
                 end in
  let members := match members with
                 | String "]" r => r
                 | _ => members
                 end in
  negb (char_in "]" members).

(** The parser.  [acc] holds the items read so far, last first;
    [repeatable] tells whether the last item may still take a repeat;
    [braces] is [Some digits] while a counted repeat is being read. *)
Fixpoint parse_from (acc : list item) (repeatable : bool) (braces : option (option N))
  (s : string) : result (list item) :=
  match s with
  | EmptyString =>
      match braces with
      | None => Return (rev acc)
      | Some _ => outside_fragment
      end
  | String c rest =>
      match braces with
      | Some digits =>
          match digit_of c with
          | Some d =>
              let n := match digits with
                       | Some n => n
                       | None => 0%N
                       end in
              parse_from acc repeatable (Some (Some (10 * n + d)%N)) rest
          | None =>
              if Ascii.eqb c "}"
              then match digits, acc with
                   | Some n, it :: acc' =>
                       if (MAXREPEAT <=? n)%N then Raise (OtherError "OverflowError")
                       else parse_from (repeat it (N.to_nat n) ++ acc')%list false None rest
                   | _, _ => outside_fragment
                   end
              else outside_fragment
          end
      | None =>
          if Ascii.eqb c "*"
          then match acc with
               | it :: acc' =>
                   if repeatable
                   then parse_from (mkItem (it_atom it) true :: acc') false None rest
                   else Raise re_error
               | [] => Raise re_error
               end
          else if Ascii.eqb c "{"
          then if repeatable then parse_from acc repeatable (Some None) rest
               else outside_fragment
          else if Ascii.eqb c "[" && unterminated_set rest then Raise re_error
          else if is_meta c then outside_fragment
          else
            let a := if Ascii.eqb c "." then Dot else Lit c in
            parse_from (mkItem a false :: acc) true None rest
      end
  end.

Definition parse (s : string) : result (list item) := parse_from [] false None s.

Definition atom_ok (ignorecase : bool) (a : atom) (c : ascii) : bool :=
  match a with
  | Dot => negb (Ascii.eqb c "010")
  | Lit x =>
      if ignorecase then Ascii.eqb (ascii_lower x) (ascii_lower c)
      else Ascii.eqb x c
  end.

(** Does some prefix of the text match the items? *)
Fixpoint match_here (ignorecase : bool) (items : list item) : string -> bool :=
  match items with
  | [] => fun _ => true
  | it :: items' =>
      if it_star it
      then
        fix star (text : string) : bool :=
          match_here ignorecase items' text ||
          match text with
          | EmptyString => false
          | String c text' => atom_ok ignorecase (it_atom it) c && star text'
          end
      else
        fun text =>
          match text with
          | EmptyString => false
          | String c text' =>
              atom_ok ignorecase (it_atom it) c &&
              match_here ignorecase items' text'
          end
  end.

(** Does the pattern match anywhere in the text? *)
Fixpoint search (ignorecase : bool) (items : list item) (text : string) : bool :=
  match_here ignorecase items text ||
  match text with
  | EmptyString => false
  | String _ text' => search ignorecase items text'
  end.

Definition compile (regex : string) (flags : Z) : result (bool * list item) :=
  items <- parse regex ;; Return (Z.testbit flags 1, items).

Definition lib : PythonLib := {|
  Pattern := bool * list item;
  re_compile := compile;
  re_search := fun p line => search (fst p) (snd p) line;
  str_lower := lower;
  re_compile_empty := fun flags => ex_intro _ (Z.testbit flags 1, []) eq_refl
|}.

End Fragment.

(** ** [logtap.core.search] *)

Module Search.
Section WithLib.
Context {lib : PythonLib}.

(** [filter_lines(lines, term=None, regex=None, case_sensitive=True)] *)
Definition filter_lines (lines : list string) (term regex : option string)
  (case_sensitive : bool) : result (list string) :=
  if negb (truthy term) && negb (truthy regex) then Return lines
  else
    match regex with
    | Some (String _ _ as regex) =>
        let flags := if case_sensitive then 0%Z else IGNORECASE in
        try_except
          (pattern <- re_compile regex flags ;;
           Return (filter (fun line => re_search pattern line) lines))
          is_re_error
          (Return [])
    | _ =>
        match term with
        | Some (String _ _ as term) =>
            if case_sensitive
            then Return (filter (fun line => str_in term line) lines)
            else Return (filter (fun line => str_in (str_lower term) (str_lower line)) lines)
        | _ => Return lines
        end
    end.

End WithLib.
End Search.

(** ** [logtap.core.validation] *)

Module Validation.

(** The path components of a name: the pieces between ["/"] characters. *)
Fixpoint components (name : string) : list string :=
  match name with
  | EmptyString => [EmptyString]
  | String c rest =>
      if Ascii.eqb c "/"
      then EmptyString :: components rest
      else match components rest with
           | piece :: pieces => String c piece :: pieces
           | [] => [String c EmptyString]
           end
  end.

(** Modelled from the spec: [is_filename_valid] of [core/validation.py],
    whose text is missing.  Section 4.1: the empty string is allowed; a name
    containing a parent-directory segment [..] as a path component is
    rejected, and so is a name beginning with the path-root marker (["/"], as
    [ERROR_INVALID_FILENAME] in [routes/logs.py] words it). *)
Definition is_filename_valid (name : string) : bool :=
  negb (existsb (String.eqb "..") (components name)) &&
  negb (startswith "/" name).

(** Modelled from the spec: [is_search_term_valid] of [core/validation.py].
    Section 4.1: true iff [length(term) <= 100]. *)
Definition is_search_term_valid (term : string) : bool :=
  (len term <=? 100)%Z.

(** Modelled from the spec: [is_limit_valid] of [core/validation.py].
    Section 4.1: true iff [1 <= n <= 1000]. *)
Definition is_limit_valid (n : Z) : bool :=
  (1 <=? n)%Z && (n <=? 1000)%Z.

(** [name] contains [..] as a path component: the two dots are at the start
    of the name or right after a ["/"], and at its end or right before a
    ["/"]. *)
Definition has_parent_segment (name : string) : Prop :=
  exists pre post : string,
    name = pre ++ ".." ++ post /\
    (pre = EmptyString \/ exists pre', pre = pre' ++ "/") /\
    (post = EmptyString \/ exists post', post = "/" ++ post').

(** [name] begins with the path-root marker. *)
Definition begins_with_root (name : string) : Prop :=
  exists rest : string, name = "/" ++ rest.

(** ["/".join(pieces)] *)
Fixpoint join_sep (pieces : list string) : string :=
  match pieces with
  | [] => EmptyString
  | [piece] => piece
  | piece :: rest => piece ++ "/" ++ join_sep rest
  end.

End Validation.

(** ** [logtap.api.routes.logs] *)

Module Routes.
Import Validation.

Definition dquote : string := String "034"%char EmptyString.

Definition ERROR_INVALID_FILENAME : string :=
  "Invalid filename: must not contain " ++ dquote ++ ".." ++ dquote ++
  " or start with " ++ dquote ++ "/" ++ dquote.
Definition ERROR_LONG_SEARCH_TERM : string :=
  "Search term is too long: must be 100 characters or fewer".
Definition ERROR_INVALID_LIMIT : string :=
  "Invalid limit value: must be between 1 and 1000".

Definition HTTP_400_BAD_REQUEST : Z := 400.
Definition HTTP_404_NOT_FOUND : Z := 404.

(** [LogResponse(lines=..., count=..., filename=...)] *)
Record LogResponse : Type := mkLogResponse {
  lines : list string;
  count : Z;
  filename : string
}.

(** [os.path.join(a, b)] for two POSIX paths. *)
Definition os_path_join (a b : string) : string :=
  if startswith "/" b then b
  else if negb (str_truthy a) || endswith_char "/" a then a ++ b
  else a ++ "/" ++ b.

Section WithEnv.
Context {lib : PythonLib}.

(** The collaborators of the route: [settings.get_log_directory()],
    [os.path.isfile] on the file system of the request, and
    [logtap.core.reader.tail_async] (awaited). *)
Variable log_directory : string.
Variable isfile : string -> bool.
Variable tail_async : string -> Z -> result (list string).

(** The body of [get_logs].  The [Query(ge=1, le=1000)] bound on [limit] and
    the API-key dependency are FastAPI's, applied before the body runs. *)
Definition get_logs (filename term : string) (regex : option string)
  (limit : Z) (case_sensitive : bool) : result LogResponse :=
  if negb (is_filename_valid filename)
  then Raise (HTTPException HTTP_400_BAD_REQUEST ERROR_INVALID_FILENAME)
  else if char_in "/" filename || char_in "\" filename
  then Raise (HTTPException HTTP_400_BAD_REQUEST ERROR_INVALID_FILENAME)
  else if str_truthy term && negb (is_search_term_valid term)
  then Raise (HTTPException HTTP_400_BAD_REQUEST ERROR_LONG_SEARCH_TERM)
  else if negb (is_limit_valid limit)
  then Raise (HTTPException HTTP_400_BAD_REQUEST ERROR_INVALID_LIMIT)
  else
    let filepath := os_path_join log_directory filename in
    if negb (isfile filepath)
    then Raise (HTTPException HTTP_404_NOT_FOUND
                  ("File not found: " ++ filepath ++ " does not exist"))
    else
      lines <- tail_async filepath limit ;;
      lines <- (if truthy regex
                then Search.filter_lines lines None regex case_sensitive
                else if str_truthy term
                then Search.filter_lines lines (Some term) None case_sensitive
                else Return lines) ;;
      Return (mkLogResponse lines (Z.of_nat (length lines)) filename).

(** The guards of [get_logs] all pass. *)
Definition valid_request (filename term : string) (limit : Z) : bool :=
  is_filename_valid filename &&
  negb (char_in "/" filename || char_in "\" filename) &&
  negb (str_truthy term && negb (is_search_term_valid term)) &&
  is_limit_valid limit &&
  isfile (os_path_join log_directory filename).

End WithEnv.
End Routes.

(** ** [logtap.core.reader] *)

Module Reader.

Definition NL : ascii := "010"%char.

Definition is_nl (c : ascii) : bool := Ascii.eqb c NL.

(** Number of newline boundaries in a buffer. *)
Definition count_nl (buf : list ascii) : nat := length (filter is_nl buf).

(** [f.seek(start); f.read(n)] on a file given by its content. *)
Definition read_block (file : list ascii) (start n : nat) : list ascii :=
  firstn n (skipn start file).

(** The backward scan (steps 2 and 3 of section 4.2): chunks of [chunk]
    characters are read moving backward from [pos] and put in front of the
    accumulated buffer, until [limit + 1] newline boundaries have been found
    or the start of the file is reached.  [fuel] bounds the number of chunk
    reads; the file size is always enough when [chunk] is positive. *)
Fixpoint scan_back (fuel : nat) (file : list ascii) (chunk limit : nat)
  (pos found : nat) (buf : list ascii) : list ascii :=
  match fuel with
  | O => buf
  | S fuel' =>
      if (pos =? 0)%nat || (limit + 1 <=? found)%nat then buf
      else
        let start := pos - chunk in
        let block := read_block file start (pos - start) in
        scan_back fuel' file chunk limit start (found + count_nl block)
          (block ++ buf)%list
  end.

(** Splitting a buffer on the newline boundary: [k] newlines give [k + 1]
    pieces. *)
Fixpoint split_nl (buf : list ascii) : list (list ascii) :=
  match buf with
  | [] => [[]]
  | c :: rest =>
      if is_nl c then [] :: split_nl rest
      else match split_nl rest with
           | piece :: pieces => (c :: piece) :: pieces
           | [] => [[c]]
           end
  end.

(** The empty piece after a final newline (or of an empty buffer) is not a
    line. *)
Fixpoint drop_synthetic (pieces : list (list ascii)) : list (list ascii) :=
  match pieces with
  | [] => []
  | [[]] => []
  | piece :: rest => piece :: drop_synthetic rest
  end.

(** The last [n] entries of a list. *)
Definition lastn {A : Type} (n : nat) (l : list A) : list A :=
  skipn (length l - n) l.

(** Modelled from the spec: [tail] of [core/reader.py], whose text is
    missing.  Section 4.2, steps 1 to 4: determine the size, scan backward by
    chunks, split the accumulated buffer on the newline boundary and take the
    last [limit] entries, with no trailing synthetic empty line.  The file is
    given by its content as text; decoding (step 5) is not modelled. *)
Definition tail (chunk : nat) (file : list ascii) (limit : nat) : list string :=
  let size := length file in
  let buf := scan_back size file chunk limit size 0 [] in
  map string_of_list_ascii (lastn limit (drop_synthetic (split_nl buf))).

(** The logical lines of a file (section 6: one logical line per
    newline-terminated record), read forward: every newline closes the
    current record, and what follows the last newline is a line only when it
    is not empty. *)
Fixpoint records (cur : list ascii) (file : list ascii) : list (list ascii) :=
  match file with
  | [] => match cur with
          | [] => []
          | _ => [cur]
          end
  | c :: rest =>
      if is_nl c then cur :: records [] rest
      else records (cur ++ [c])%list rest
  end.

Definition logical_lines (file : list ascii) : list string :=
  map string_of_list_ascii (records [] file).

(** The content of a file written as [sep.join(lines)] with [sep] a newline,
    as the tests write their files. *)
Fixpoint join_nl (lines : list string) : list ascii :=
  match lines with
  | [] => []
  | [l] => list_ascii_of_string l
  | l :: rest => (list_ascii_of_string l ++ NL :: join_nl rest)%list
  end.

(** A line holds no newline. *)
Definition no_nl (line : string) : bool :=
  forallb (fun c => negb (is_nl c)) (list_ascii_of_string line).

End Reader.

(** ** [logtap.core.parsers] *)

Module Parsers.

Inductive LogLevel : Type :=
| EMERGENCY | ALERT | CRITICAL | ERROR | WARNING | NOTICE | INFO | DEBUG.

(** Modelled from the spec: [LogLevel.severity] of [core/parsers/base.py].
    Section 3: the syslog numeric code, 0 = EMERGENCY to 7 = DEBUG. *)
Definition severity (l : LogLevel) : Z :=
  match l with
  | EMERGENCY => 0 | ALERT => 1 | CRITICAL => 2 | ERROR => 3
  | WARNING => 4 | NOTICE => 5 | INFO => 6 | DEBUG => 7
  end.

(** The numeric strings, the level names and the alias that
    [from_string] recognizes. *)
Definition numeric_levels : list (string * LogLevel) :=
  [("0", EMERGENCY); ("1", ALERT); ("2", CRITICAL); ("3", ERROR);
   ("4", WARNING); ("5", NOTICE); ("6", INFO); ("7", DEBUG)].

Definition level_names : list (string * LogLevel) :=
  [("emergency", EMERGENCY); ("alert", ALERT); ("critical", CRITICAL);
   ("error", ERROR); ("warning", WARNING); ("notice", NOTICE);
   ("info", INFO); ("debug", DEBUG)].

Definition level_aliases : list (string * LogLevel) :=
  [("warn", WARNING)].

Fixpoint lookup (key : string) (table : list (string * LogLevel)) : option LogLevel :=
  match table with
  | [] => None
  | (k, v) :: rest => if String.eqb k key then Some v else lookup key rest
  end.

(** Modelled from the spec: [LogLevel.from_string] of
    [core/parsers/base.py], whose text is missing.  Section 3: an exact
    numeric string, a case-insensitive name or a recognized alias; any other
    input yields INFO. *)
Definition from_string (s : string) : LogLevel :=
  match lookup s numeric_levels with
  | Some l => l
  | None =>
      match lookup (lower s) (level_names ++ level_aliases)%list with
      | Some l => l
      | None => INFO
      end
  end.

(** The concrete parsers, in the dispatch order of [Auto]. *)
Inductive Parser : Type := Json | Syslog | Nginx | Apache.

Definition dispatch_order : list Parser := [Json; Syslog; Nginx; Apache].

(** Position in the dispatch order. *)
Definition rank (p : Parser) : nat :=
  match p with
  | Json => 0 | Syslog => 1 | Nginx => 2 | Apache => 3
  end.

Definition parser_name (p : Parser) : string :=
  match p with
  | Json => "json" | Syslog => "syslog" | Nginx => "nginx" | Apache => "apache"
  end.

Section Detect.

(** [can_parse] of each concrete parser, whose text is missing. *)
Variable can_parse : Parser -> string -> bool.

(** Successes of one parser over the sample. *)
Definition tally (p : Parser) (sample : list string) : nat :=
  length (filter (can_parse p) sample).

(** The leader among [ps]: the first parser, in the order given, whose tally
    no other reaches. *)
Fixpoint leader (best : Parser) (ps : list Parser) (sample : list string) : Parser :=
  match ps with
  | [] => best
  | p :: rest =>
      if (tally best sample <? tally p sample)%nat
      then leader p rest sample
      else leader best rest sample
  end.

(** Modelled from the spec: [detect_format] of [core/parsers/auto.py], whose
    text is missing.  Section 4.5: every concrete parser's [can_parse] is
    tallied over the sample; the leader is returned when it has a strict
    majority, ties going to the earlier parser in the order
    Json, Syslog, Nginx, Apache; nothing is returned for an empty sample or
    when no parser achieves a majority. *)
Definition detect_format (sample : list string) : option Parser :=
  match sample with
  | [] => None
  | _ =>
      let best := leader Json [Syslog; Nginx; Apache] sample in
      if (length sample <? 2 * tally best sample)%nat then Some best else None
  end.

End Detect.
End Parsers.

(** ** [tests/conftest.py] *)

Module Conftest.

(** [enumerate(lines)], counting from [start]. *)
Fixpoint enumerate_from (start : Z) (lines : list string) : list (Z * string) :=
  match lines with
  | [] => []
  | line :: rest => (start, line) :: enumerate_from (start + 1) rest
  end.

(** One pass of the write loop of [_create_log_file]: the line is written
    as it is when its index is [len(lines) - 1], with a newline after it
    otherwise. *)
Definition write_line (total : Z) (written : list ascii) (entry : Z * string)
  : list ascii :=
  let (index, line) := entry in
  if (index =? total - 1)%Z
  then (written ++ list_ascii_of_string line)%list
  else (written ++ list_ascii_of_string line ++ [Reader.NL])%list.

(** The text of the file [_create_log_file(lines)] leaves behind: the file is
    opened for writing, hence empty, and every line is written in turn. *)
Definition create_log_file (lines : list string) : list ascii :=
  fold_left (write_line (Z.of_nat (length lines))) (enumerate_from 0 lines) [].

End Conftest.

(** ** A small request environment for running the route *)

Module Demo.

Definition log_directory : string := "/var/log".

(** The one file of the log directory, written as the tests write theirs. *)
Definition app_log : list ascii :=
  Reader.join_nl ["error: x"; "info: y"; "warning: slow"; "error: z"].

Definition isfile (path : string) : bool := String.eqb path "/var/log/app.log".

Definition tail_async (path : string) (limit : Z) : result (list string) :=
  if isfile path then Return (Reader.tail 64 app_log (Z.to_nat limit))
  else Raise (OtherError "FileNotFoundError").

(** A first-character check standing for the parsers' [can_parse]. *)
Definition can_parse (p : Parsers.Parser) (line : string) : bool :=
  match p with
  | Parsers.Json => startswith "{" line
  | Parsers.Syslog => startswith "Jan " line
  | _ => false
  end.

End Demo.

(** * Properties *)

(** ** Strings *)

Lemma prefix_spec (t l : string) :
  String.prefix t l = true <-> exists post : string, l = t ++ post.
Proof.
  revert l; induction t as [|a t IH]; intros l.
  - split; [intros _; exists l; reflexivity | destruct l; reflexivity].
  - destruct l as [|b l]; simpl.
    + split; [discriminate | intros [post H]; discriminate].
    + destruct (Ascii.ascii_dec a b) as [->|Hab].
      * rewrite IH. split; intros [post H]; exists post.
        -- now rewrite H.
        -- now inversion H.
      * split; [discriminate | intros [post H]; inversion H; congruence].
Qed.

Lemma str_in_spec (t l : string) : str_in t l = true <-> occurs t l.
Proof.
  unfold occurs. induction l as [|c l IH].
  - cbn [str_in]. rewrite orb_false_r, prefix_spec. split.
    + intros [post H]. exists EmptyString, post. exact H.
    + intros [pre [post H]]. destruct pre; [exists post; exact H | discriminate].
  - cbn [str_in]. rewrite orb_true_iff, prefix_spec, IH. split.
    + intros [[post H] | [pre [post H]]].
      * exists EmptyString, post. exact H.
      * exists (String c pre), post. simpl. now rewrite H.
    + intros [pre [post H]]. destruct pre as [|a pre]; simpl in H.
      * left. exists post. exact H.
      * right. exists pre, post. now inversion H.
Qed.

Lemma truthy_Some (s : string) : truthy (Some s) = true <-> s <> EmptyString.
Proof. destruct s; simpl; split; congruence. Qed.

(** ** The search filter *)

Section SearchFacts.
Context {lib : PythonLib}.
Import Search.

Lemma filter_lines_term (lines : list string) (term : string) (regex : option string)
  (case_sensitive : bool) :
  term <> EmptyString -> truthy regex = false ->
  filter_lines lines (Some term) regex case_sensitive =
  Return (filter (fun line =>
                    if case_sensitive then str_in term line
                    else str_in (str_lower term) (str_lower line)) lines).
Proof.
  intros Ht Hr. unfold filter_lines.
  destruct term as [|a term]; [congruence|].
  destruct regex as [[|b regex]|]; simpl in Hr; try discriminate;
    simpl; destruct case_sensitive; reflexivity.
Qed.

Lemma filter_lines_regex (lines : list string) (term : option string) (regex : string)
  (case_sensitive : bool) :
  regex <> EmptyString ->
  filter_lines lines term (Some regex) case_sensitive =
  try_except
    (pattern <- re_compile regex (if case_sensitive then 0%Z else IGNORECASE) ;;
     Return (filter (fun line => re_search pattern line) lines))
    is_re_error (Return []).
Proof.
  intros Hr. unfold filter_lines.
  destruct regex as [|b regex]; [congruence|].
  simpl truthy. rewrite andb_false_r. reflexivity.
Qed.

Lemma compile_error_nonempty (regex : string) (flags : Z) (e : exn) :
  re_compile regex flags = Raise e -> regex <> EmptyString.
Proof.
  intros H ->. destruct (re_compile_empty flags) as [p Hp]. congruence.
Qed.

(** C2. With no filter, [filter_lines] is the identity: when neither [term]
    nor [regex] is given, and when [term] is the empty string and no regex is
    given, the input list is returned unchanged. *)
Theorem filter_lines_no_filter_identity (lines : list string) (case_sensitive : bool) :
  filter_lines lines None None case_sensitive = Return lines /\
  filter_lines lines (Some EmptyString) None case_sensitive = Return lines.
Proof. split; reflexivity. Qed.

(** C3, as amended.  When a non-empty [regex] is given and compiles, the
    result is the input lines the pattern matches somewhere, in their
    original order, whatever [term] is given with it. *)
Theorem filter_lines_regex_precedence (lines : list string) (term : option string)
  (regex : string) (case_sensitive : bool) (pattern : Pattern) :
  regex <> EmptyString ->
  re_compile regex (if case_sensitive then 0%Z else IGNORECASE) = Return pattern ->
  filter_lines lines term (Some regex) case_sensitive =
    Return (filter (fun line => re_search pattern line) lines) /\
  filter_lines lines term (Some regex) case_sensitive =
    filter_lines lines None (Some regex) case_sensitive.
Proof.
  intros Hne Hc. rewrite !filter_lines_regex by assumption.
  rewrite Hc. split; reflexivity.
Qed.

(** C4. When [re.compile] fails on the regex, [filter_lines] returns the
    empty list only if the failure is [re.error]: the handler catches that
    class alone, and any other exception of [re.compile], such as the
    [OverflowError] of a repeat count that is too large, is raised to the
    caller. *)
Theorem filter_lines_compile_failure (lines : list string) (term : option string)
  (regex : string) (case_sensitive : bool) (e : exn) :
  re_compile regex (if case_sensitive then 0%Z else IGNORECASE) = Raise e ->
  filter_lines lines term (Some regex) case_sensitive =
  if is_re_error e then Return [] else Raise e.
Proof.
  intros Hc. rewrite filter_lines_regex by (eapply compile_error_nonempty; eassumption).
  rewrite Hc. reflexivity.
Qed.

(** C5. With only a non-empty [term]: case-sensitively a line is kept iff the
    term occurs in it; case-insensitively a line is kept iff the lowered term
    occurs in the lowered line, so that terms, and lines, that differ only in
    case are treated alike. *)
Theorem filter_lines_term_substring (lines : list string) (term : string) :
  term <> EmptyString ->
  (exists keep : string -> bool,
     filter_lines lines (Some term) None true = Return (filter keep lines) /\
     forall line, keep line = true <-> occurs term line) /\
  (exists keep : string -> bool,
     filter_lines lines (Some term) None false = Return (filter keep lines) /\
     (forall line, keep line = true <-> occurs (str_lower term) (str_lower line)) /\
     (forall line line', str_lower line = str_lower line' -> keep line = keep line')) /\
  (forall term', term' <> EmptyString -> str_lower term = str_lower term' ->
     filter_lines lines (Some term) None false =
     filter_lines lines (Some term') None false).
Proof.
  intros Hne. repeat split.
  - exists (fun line => str_in term line). split.
    + now rewrite filter_lines_term.
    + intros line. apply str_in_spec.
  - exists (fun line => str_in (str_lower term) (str_lower line)). repeat split.
    + now rewrite filter_lines_term.
    + apply str_in_spec.
    + apply str_in_spec.
    + intros line line' H. now rewrite H.
  - intros term' Hne' H. rewrite !filter_lines_term by auto. now rewrite H.
Qed.

(** An empty-string regex counts as absent: the result is the one for no
    regex at all, and the regex engine is not consulted. *)
Lemma filter_lines_empty_regex (lines : list string) (term : option string)
  (case_sensitive : bool) :
  filter_lines lines term (Some EmptyString) case_sensitive =
  filter_lines lines term None case_sensitive.
Proof. unfold filter_lines. destruct term as [[|a t]|]; reflexivity. Qed.

Lemma filter_lines_no_regex (lines : list string) (term : option string)
  (case_sensitive : bool) :
  filter_lines lines term None case_sensitive =
  Return (if truthy term
          then filter (fun line =>
                         match term with
                         | Some t => if case_sensitive then str_in t line
                                     else str_in (str_lower t) (str_lower line)
                         | None => true
                         end) lines
          else lines).
Proof.
  unfold filter_lines. destruct term as [[|a t]|]; simpl; try reflexivity.
  destruct case_sensitive; reflexivity.
Qed.

End SearchFacts.

(** ** The tail reader *)

Section ReaderFacts.
Import Reader.

Lemma count_nl_app (a b : list ascii) :
  count_nl (a ++ b)%list = count_nl a + count_nl b.
Proof. unfold count_nl. now rewrite filter_app, length_app. Qed.

Lemma split_nl_length (buf : list ascii) :
  length (split_nl buf) = S (count_nl buf).
Proof.
  unfold count_nl. induction buf as [|c buf IH]; simpl; [reflexivity|].
  destruct (is_nl c); simpl; [now rewrite IH|].
  destruct (split_nl buf); simpl in *; lia.
Qed.

Lemma split_nl_cons (buf : list ascii) :
  split_nl buf = hd [] (split_nl buf) :: tl (split_nl buf).
Proof.
  pose proof (split_nl_length buf) as H.
  destruct (split_nl buf); [discriminate | reflexivity].
Qed.

(** Text put in front of a buffer changes the first piece only. *)
Lemma split_nl_suffix (pre buf : list ascii) :
  exists (front : list (list ascii)) (piece : list ascii),
    split_nl (pre ++ buf)%list = (front ++ piece :: tl (split_nl buf))%list.
Proof.
  induction pre as [|c pre (front & piece & IH)]; simpl.
  - exists [], (hd [] (split_nl buf)). apply split_nl_cons.
  - destruct (is_nl c).
    + exists ([] :: front), piece. now rewrite IH.
    + rewrite IH. destruct front as [|x front]; simpl.
      * exists [], (c :: piece). reflexivity.
      * exists ((c :: x) :: front), piece. reflexivity.
Qed.

Lemma drop_synthetic_cons (piece : list ascii) (rest : list (list ascii)) :
  rest <> [] -> drop_synthetic (piece :: rest) = piece :: drop_synthetic rest.
Proof. intros H. destruct piece, rest; simpl; congruence. Qed.

Lemma drop_synthetic_app (front rest : list (list ascii)) :
  rest <> [] ->
  drop_synthetic (front ++ rest)%list = (front ++ drop_synthetic rest)%list.
Proof.
  intros H. induction front as [|x front IH]; [reflexivity|].
  change ((x :: front) ++ rest)%list with (x :: (front ++ rest)%list).
  rewrite drop_synthetic_cons, IH; [reflexivity|].
  destruct front; simpl; [assumption | discriminate].
Qed.

Lemma drop_synthetic_length (pieces : list (list ascii)) :
  length pieces <= S (length (drop_synthetic pieces)).
Proof.
  induction pieces as [|x pieces IH]; simpl; [lia|].
  destruct x, pieces; simpl in *; lia.
Qed.

Lemma lastn_app {A : Type} (n : nat) (front back : list A) :
  n <= length back -> lastn n (front ++ back)%list = lastn n back.
Proof.
  intros H. unfold lastn. rewrite length_app, skipn_app.
  rewrite skipn_all2 by lia. simpl. f_equal. lia.
Qed.

Lemma lastn_all {A : Type} (n : nat) (l : list A) :
  length l <= n -> lastn n l = l.
Proof.
  intros H. unfold lastn. replace (length l - n) with 0 by lia. reflexivity.
Qed.

Lemma lastn_length {A : Type} (n : nat) (l : list A) :
  length (lastn n l) = Nat.min n (length l).
Proof. unfold lastn. rewrite length_skipn. lia. Qed.

Lemma lastn_suffix {A : Type} (n : nat) (l : list A) :
  l = (firstn (length l - n) l ++ lastn n l)%list.
Proof. unfold lastn. now rewrite firstn_skipn. Qed.

Lemma lastn_map {A B : Type} (f : A -> B) (n : nat) (l : list A) :
  lastn n (map f l) = map f (lastn n l).
Proof. unfold lastn. now rewrite length_map, skipn_map. Qed.

Lemma lastn_snoc {A : Type} (n : nat) (init : list A) (x : A) :
  1 <= n -> exists init', lastn n (init ++ [x])%list = (init' ++ [x])%list.
Proof.
  intros H. exists (lastn (n - 1) init). unfold lastn.
  rewrite length_app, skipn_app. simpl length.
  replace (length init + 1 - n) with (length init - (n - 1)) by lia.
  replace (length init - (n - 1) - length init) with 0 by lia.
  reflexivity.
Qed.

(** Reading forward record by record is splitting on the newline boundary
    and leaving out the synthetic last piece. *)
Lemma records_split_nl (cur file : list ascii) :
  records cur file =
  drop_synthetic ((cur ++ hd [] (split_nl file))%list :: tl (split_nl file)).
Proof.
  revert cur. induction file as [|c file IH]; intros cur.
  - simpl. rewrite app_nil_r. destruct cur; reflexivity.
  - pose proof (split_nl_length file) as Hlen.
    cbn [records split_nl]. destruct (is_nl c).
    + cbn [hd tl]. rewrite app_nil_r, drop_synthetic_cons.
      * f_equal. rewrite IH. cbn [app]. now rewrite <- split_nl_cons.
      * destruct (split_nl file); [discriminate | congruence].
    + rewrite IH. destruct (split_nl file); [discriminate|].
      cbn [hd tl]. now rewrite <- app_assoc.
Qed.

Lemma records_nil (file : list ascii) :
  records [] file = drop_synthetic (split_nl file).
Proof. rewrite records_split_nl. cbn [app]. now rewrite <- split_nl_cons. Qed.

(** What the backward scan accumulates is a suffix of the file that is either
    the whole file or holds at least [limit + 1] newline boundaries. *)
Lemma scan_back_suffix (chunk limit : nat) (file : list ascii) :
  0 < chunk ->
  forall fuel pos, pos <= fuel -> pos <= length file ->
  exists p,
    scan_back fuel file chunk limit pos (count_nl (skipn pos file)) (skipn pos file)
      = skipn p file /\
    (p = 0 \/ limit + 1 <= count_nl (skipn p file)).
Proof.
  intros Hc. induction fuel as [|fuel IH]; intros pos Hf Hl.
  - exists 0. assert (pos = 0) as -> by lia. simpl. auto.
  - cbn [scan_back].
    destruct (Nat.eqb_spec pos 0) as [->|Hpos]; [exists 0; simpl; auto|].
    destruct (Nat.leb_spec (limit + 1) (count_nl (skipn pos file))) as [Hn|Hn];
      simpl orb; cbv iota; [exists pos; auto|].
    set (start := pos - chunk).
    assert (Hblk : (read_block file start (pos - start) ++ skipn pos file)%list
                   = skipn start file).
    { unfold read_block.
      replace (skipn pos file) with (skipn (pos - start) (skipn start file)).
      - apply firstn_skipn.
      - rewrite skipn_skipn. f_equal. lia. }
    assert (Hcnt : count_nl (skipn pos file) + count_nl (read_block file start (pos - start))
                   = count_nl (skipn start file)).
    { rewrite <- Hblk, count_nl_app. lia. }
    rewrite Hblk, Hcnt. apply IH; lia.
Qed.

(** Enough boundaries in the accumulated suffix: the last [limit] lines of
    the suffix are those of the file. *)
Lemma lastn_lines_suffix (limit : nat) (pre buf : list ascii) :
  limit + 1 <= count_nl buf ->
  lastn limit (drop_synthetic (split_nl buf)) =
  lastn limit (drop_synthetic (split_nl (pre ++ buf)%list)).
Proof.
  intros Hn.
  destruct (split_nl_suffix pre buf) as (front & piece & ->).
  pose proof (split_nl_length buf) as Hlen.
  remember (hd [] (split_nl buf)) as h eqn:Eh.
  remember (tl (split_nl buf)) as t eqn:Et.
  assert (Hs : split_nl buf = h :: t) by (subst; apply split_nl_cons).
  rewrite Hs in *. simpl in Hlen.
  assert (Hne : t <> []) by (destruct t; simpl in *; [lia | discriminate]).
  pose proof (drop_synthetic_length t) as Hd.
  replace (front ++ piece :: t)%list with ((front ++ [piece]) ++ t)%list
    by (now rewrite <- app_assoc).
  rewrite drop_synthetic_app, drop_synthetic_cons by assumption.
  rewrite lastn_app by lia.
  change (h :: drop_synthetic t) with ([h] ++ drop_synthetic t)%list.
  now rewrite lastn_app by lia.
Qed.

Lemma tail_lastn (chunk limit : nat) (file : list ascii) :
  0 < chunk -> tail chunk file limit = lastn limit (logical_lines file).
Proof.
  intros Hc. unfold tail, logical_lines. rewrite lastn_map. f_equal.
  destruct (scan_back_suffix chunk limit file Hc (length file) (length file))
    as (p & Hscan & Hp); try lia.
  rewrite skipn_all in Hscan. change (count_nl []) with 0 in Hscan.
  rewrite Hscan, records_nil.
  destruct Hp as [->|Hp]; [reflexivity|].
  rewrite (lastn_lines_suffix limit (firstn p file)) by assumption.
  now rewrite firstn_skipn.
Qed.

(** A file that does not end with a newline ends with a non-empty line. *)
Lemma records_unterminated (body cur : list ascii) (c : ascii) :
  is_nl c = false ->
  exists init line, records cur (body ++ [c])%list = (init ++ [(line ++ [c])%list])%list.
Proof.
  intros Hc. revert cur. induction body as [|b body IH]; intros cur; simpl.
  - rewrite Hc. exists [], cur. simpl. destruct cur; reflexivity.
  - destruct (is_nl b).
    + destruct (IH []) as (init & line & ->). exists (cur :: init), line. reflexivity.
    + apply IH.
Qed.

End ReaderFacts.

Section ReaderClaims.
Import Reader.

Lemma logical_lines_unterminated (body : list ascii) (c : ascii) :
  c <> NL ->
  exists init line,
    logical_lines (body ++ [c])%list = (init ++ [line])%list /\ line <> EmptyString.
Proof.
  intros Hc. unfold logical_lines.
  destruct (records_unterminated body [] c) as (init & line & ->).
  - now apply Ascii.eqb_neq.
  - exists (map string_of_list_ascii init), (string_of_list_ascii (line ++ [c])%list).
    rewrite map_app. split; [reflexivity|].
    destruct line; discriminate.
Qed.

(** C1. For a positive chunk size and a limit in [1, 1000], [tail] returns
    the last [limit] logical lines of the file in file order: all of them
    when there are at most [limit], the final [limit] otherwise, none for an
    empty file; and when the file does not end with a newline the last line
    returned is the non-empty text after the last newline, not an added
    empty line. *)
Theorem tail_last_lines (chunk limit : nat) (file : list ascii) :
  0 < chunk -> 1 <= limit <= 1000 ->
  tail chunk file limit = lastn limit (logical_lines file) /\
  (length (logical_lines file) <= limit ->
     tail chunk file limit = logical_lines file) /\
  (limit < length (logical_lines file) ->
     length (tail chunk file limit) = limit /\
     exists earlier,
       logical_lines file = (earlier ++ tail chunk file limit)%list) /\
  (file = [] -> tail chunk file limit = []) /\
  (forall body c, file = (body ++ [c])%list -> c <> NL ->
     exists init line,
       tail chunk file limit = (init ++ [line])%list /\ line <> EmptyString).
Proof.
  intros Hc Hl. rewrite (tail_lastn chunk limit file Hc). repeat split.
  - apply lastn_all.
  - rewrite lastn_length. lia.
  - exists (firstn (length (logical_lines file) - limit) (logical_lines file)).
    apply lastn_suffix.
  - intros ->. reflexivity.
  - intros body c -> Hne.
    destruct (logical_lines_unterminated body c Hne) as (init & line & -> & Hline).
    destruct (lastn_snoc limit init line) as [init' ->]; [lia|].
    now exists init', line.
Qed.

(** A file written as the tests write theirs, newline-joined with a non-empty
    last line, has the joined lines as its logical lines. *)
Lemma records_no_nl (a cur rest : list ascii) :
  forallb (fun c => negb (is_nl c)) a = true ->
  records cur (a ++ rest)%list = records (cur ++ a)%list rest.
Proof.
  revert cur. induction a as [|c a IH]; intros cur H; simpl in *.
  - now rewrite app_nil_r.
  - apply andb_true_iff in H as [Hc Ha]. apply negb_true_iff in Hc.
    rewrite Hc, IH by assumption. now rewrite <- app_assoc.
Qed.

Lemma logical_lines_join_nl (lines : list string) :
  Forall (fun line => no_nl line = true) lines ->
  last lines "-" <> EmptyString ->
  logical_lines (join_nl lines) = lines.
Proof.
  unfold logical_lines.
  induction lines as [|l lines IH]; intros Hall Hlast; [reflexivity|].
  inversion Hall as [|? ? Hl Hrest]; subst.
  destruct lines as [|l2 lines].
  - cbn [join_nl last] in *.
    rewrite <- (app_nil_r (list_ascii_of_string l)), records_no_nl by exact Hl.
    cbn [app records].
    destruct l as [|c l]; [congruence|].
    cbn [list_ascii_of_string map].
    change (c :: list_ascii_of_string l) with (list_ascii_of_string (String c l)).
    now rewrite string_of_list_ascii_of_string.
  - change (join_nl (l :: l2 :: lines))
      with (list_ascii_of_string l ++ NL :: join_nl (l2 :: lines))%list.
    rewrite records_no_nl by exact Hl. cbn [app records].
    change (is_nl NL) with true. cbv iota. cbn [map].
    rewrite string_of_list_ascii_of_string. f_equal.
    apply IH; assumption.
Qed.

Lemma tail_join_nl (chunk limit : nat) (lines : list string) :
  0 < chunk ->
  Forall (fun line => no_nl line = true) lines ->
  last lines "-" <> EmptyString ->
  tail chunk (join_nl lines) limit = lastn limit lines.
Proof.
  intros Hc Hall Hlast.
  now rewrite (tail_lastn chunk limit _ Hc), logical_lines_join_nl.
Qed.

End ReaderClaims.

(** ** Validation *)

Lemma append_nil_r (s : string) : s ++ EmptyString = s.
Proof. induction s as [|c s IH]; simpl; [reflexivity | now rewrite IH]. Qed.

Lemma append_assoc (a b c : string) : (a ++ b) ++ c = a ++ b ++ c.
Proof. induction a as [|x a IH]; simpl; [reflexivity | now rewrite IH]. Qed.

Section ValidationFacts.
Import Validation.

Lemma components_nonempty (name : string) : components name <> [].
Proof.
  destruct name as [|c rest]; simpl; [discriminate|].
  destruct (Ascii.eqb c "/"); [discriminate|].
  destruct (components rest); discriminate.
Qed.

(** Joining the components gives the name back. *)
Lemma join_sep_components (name : string) : join_sep (components name) = name.
Proof.
  induction name as [|c rest IH]; [reflexivity|].
  pose proof (components_nonempty rest) as Hne.
  cbn [components]. destruct (Ascii.eqb_spec c "/") as [->|Hc].
  - destruct (components rest) as [|p ps]; [congruence|].
    cbn [join_sep]. cbn [join_sep] in IH. now rewrite IH.
  - destruct (components rest) as [|p ps]; [congruence|].
    rewrite <- IH. destruct ps; reflexivity.
Qed.

Lemma join_sep_cons (piece : string) (rest : list string) :
  rest <> [] -> join_sep (piece :: rest) = piece ++ "/" ++ join_sep rest.
Proof. destruct rest; [congruence | reflexivity]. Qed.

Lemma join_sep_app (front : list string) (piece : string) (back : list string) :
  front <> [] ->
  join_sep (front ++ piece :: back) = (join_sep front ++ "/") ++ join_sep (piece :: back).
Proof.
  induction front as [|x front IH]; [congruence|]. intros _.
  destruct front as [|y front].
  - simpl app. rewrite join_sep_cons by discriminate.
    cbn [join_sep]. now rewrite append_assoc.
  - change ((x :: y :: front) ++ piece :: back)%list
      with (x :: ((y :: front) ++ piece :: back)%list).
    rewrite join_sep_cons by discriminate.
    rewrite IH by discriminate.
    rewrite (join_sep_cons x (y :: front)) by discriminate.
    now rewrite !append_assoc.
Qed.

(** The components of a name are separated from each other by ["/"]. *)
Lemma components_app_sep (a b : string) :
  components (a ++ "/" ++ b) = (components a ++ components b)%list.
Proof.
  induction a as [|c a IH]; [reflexivity|].
  change (String c a ++ "/" ++ b) with (String c (a ++ "/" ++ b)).
  cbn [components]. rewrite IH.
  pose proof (components_nonempty a) as Hne.
  destruct (Ascii.eqb c "/"); [reflexivity|].
  destruct (components a); [congruence | reflexivity].
Qed.

Lemma components_In_segment (name x : string) :
  In x (components name) ->
  exists pre post : string,
    name = pre ++ x ++ post /\
    (pre = EmptyString \/ exists pre', pre = pre' ++ "/") /\
    (post = EmptyString \/ exists post', post = "/" ++ post').
Proof.
  intros Hin. apply in_split in Hin as (front & back & Hsplit).
  pose proof (join_sep_components name) as Hj. rewrite Hsplit in Hj.
  assert (Hback : exists post, join_sep (x :: back) = x ++ post /\
                    (post = EmptyString \/ exists post', post = "/" ++ post')).
  { destruct back as [|y back].
    - exists EmptyString. simpl. rewrite append_nil_r. auto.
    - exists ("/" ++ join_sep (y :: back)). split; [reflexivity|]. right. eauto. }
  destruct Hback as (post & Hpost & Hb).
  destruct front as [|f front].
  - exists EmptyString, post. cbn [app] in Hj. rewrite Hpost in Hj. auto.
  - rewrite join_sep_app in Hj by discriminate. rewrite Hpost in Hj.
    exists (join_sep (f :: front) ++ "/"), post. repeat split; eauto.
Qed.

Lemma segment_In_components (name : string) :
  has_parent_segment name -> In ".." (components name).
Proof.
  intros (pre & post & -> & Hpre & Hpost).
  assert (Hin : In ".." (components (".." ++ post))).
  { destruct Hpost as [->|[post' ->]].
    - simpl. auto.
    - rewrite components_app_sep. apply in_or_app. left. simpl. auto. }
  destruct Hpre as [->|[pre' ->]]; [exact Hin|].
  rewrite append_assoc, components_app_sep. apply in_or_app. now right.
Qed.

Lemma existsb_parent (l : list string) :
  existsb (String.eqb "..") l = true <-> In ".." l.
Proof.
  rewrite existsb_exists. split.
  - intros (x & Hin & Heq). apply String.eqb_eq in Heq. now subst.
  - intros Hin. exists "..". split; [assumption | apply String.eqb_refl].
Qed.

Lemma startswith_root (name : string) :
  startswith "/" name = true <-> begins_with_root name.
Proof. unfold startswith, begins_with_root. apply prefix_spec. Qed.

(** The modelled predicate accepts exactly the names that have no [..]
    component and do not begin with the root marker. *)
Lemma is_filename_valid_iff (name : string) :
  is_filename_valid name = true <->
  ~ has_parent_segment name /\ ~ begins_with_root name.
Proof.
  unfold is_filename_valid.
  rewrite andb_true_iff, !negb_true_iff, <- !not_true_iff_false.
  rewrite existsb_parent, startswith_root. split; intros [H1 H2]; split; auto.
  - intros Hseg. apply H1. now apply segment_In_components.
  - intros Hin. apply H1. apply components_In_segment in Hin. exact Hin.
Qed.

End ValidationFacts.

(** ** The query route *)

Section RouteFacts.
Context {lib : PythonLib}.
Variable log_directory : string.
Variable isfile : string -> bool.
Variable tail_async : string -> Z -> result (list string).
Import Validation Routes.


(** The two-way dispatch of the route is one call of [filter_lines] with both
    the term and the regex. *)
Lemma route_dispatch (raw : list string) (term : string) (regex : option string)
  (case_sensitive : bool) :
  (if truthy regex then Search.filter_lines raw None regex case_sensitive
   else if str_truthy term
        then Search.filter_lines raw (Some term) None case_sensitive
        else Return raw) =
  Search.filter_lines raw (Some term) regex case_sensitive.
Proof.
  destruct regex as [[|b r]|]; cbn [truthy str_truthy].
  - rewrite filter_lines_empty_regex. destruct term; reflexivity.
  - now rewrite !filter_lines_regex by discriminate.
  - destruct term; reflexivity.
Qed.

Lemma get_logs_valid (filename term : string) (regex : option string) (limit : Z)
  (case_sensitive : bool) :
  Routes.valid_request log_directory isfile filename term limit = true ->
  Routes.get_logs log_directory isfile tail_async filename term regex limit case_sensitive =
  (raw <- tail_async (os_path_join log_directory filename) limit ;;
   kept <- Search.filter_lines raw (Some term) regex case_sensitive ;;
   Return (mkLogResponse kept (Z.of_nat (length kept)) filename)).
Proof.
  unfold Routes.valid_request, Routes.get_logs. intros H.
  apply andb_true_iff in H as [H Hfile].
  apply andb_true_iff in H as [H Hlimit].
  apply andb_true_iff in H as [H Hterm].
  apply andb_true_iff in H as [Hname Hsep].
  apply negb_true_iff in Hsep, Hterm.
  rewrite Hname, Hsep, Hterm, Hlimit, Hfile. cbn [negb].
  destruct (tail_async _ limit) as [raw|e]; [|reflexivity].
  cbn [bind]. now rewrite route_dispatch.
Qed.

Lemma get_logs_separator (filename term : string) (regex : option string) (limit : Z)
  (case_sensitive : bool) :
  char_in "/" filename || char_in "\" filename = true ->
  Routes.get_logs log_directory isfile tail_async filename term regex limit case_sensitive =
  Raise (HTTPException HTTP_400_BAD_REQUEST ERROR_INVALID_FILENAME).
Proof.
  intros H. unfold Routes.get_logs. rewrite H.
  destruct (is_filename_valid filename); reflexivity.
Qed.

(** C8. [is_filename_valid] is false for every name with a [..] path
    component and for every name that begins with the root marker; a name
    with neither is accepted even when it contains a path separator, and
    such a name is turned down by the route, which answers 400 for any
    file name containing a slash or a backslash.  The predicate is a total
    function to [bool]. *)
Theorem is_filename_valid_rejects :
  (forall name, has_parent_segment name -> is_filename_valid name = false) /\
  (forall name, begins_with_root name -> is_filename_valid name = false) /\
  (forall name, ~ has_parent_segment name -> ~ begins_with_root name ->
     is_filename_valid name = true) /\
  is_filename_valid "nginx/access.log" = true /\
  (forall name term regex limit case_sensitive,
     char_in "/" name || char_in "\" name = true ->
     Routes.get_logs log_directory isfile tail_async name term regex limit case_sensitive =
     Raise (HTTPException HTTP_400_BAD_REQUEST ERROR_INVALID_FILENAME)).
Proof.
  repeat split.
  - intros name H. apply not_true_iff_false. rewrite is_filename_valid_iff. tauto.
  - intros name H. apply not_true_iff_false. rewrite is_filename_valid_iff. tauto.
  - intros name H1 H2. apply is_filename_valid_iff. tauto.
  - intros. now apply get_logs_separator.
Qed.

(** C9. The filter runs after the tail truncation: for a request that passes
    every guard, the response carries [filter_lines] of the lines the tail
    reader produced for [limit], and its count is their number. *)
Theorem get_logs_filters_after_tail (filename term : string) (regex : option string)
  (limit : Z) (case_sensitive : bool) (raw : list string) :
  Routes.valid_request log_directory isfile filename term limit = true ->
  tail_async (os_path_join log_directory filename) limit = Return raw ->
  Routes.get_logs log_directory isfile tail_async filename term regex limit case_sensitive =
    (kept <- Search.filter_lines raw (Some term) regex case_sensitive ;;
     Return (mkLogResponse kept (Z.of_nat (length kept)) filename)) /\
  (forall response,
     Routes.get_logs log_directory isfile tail_async filename term regex limit case_sensitive = Return response ->
     Search.filter_lines raw (Some term) regex case_sensitive = Return (lines response) /\
     count response = Z.of_nat (length (lines response))).
Proof.
  intros Hv Ht. rewrite (get_logs_valid _ _ _ _ _ Hv), Ht. cbn [bind].
  split; [reflexivity|]. intros response.
  destruct (Search.filter_lines raw (Some term) regex case_sensitive) as [kept|e];
    cbn [bind]; [|discriminate].
  intros [= <-]. split; reflexivity.
Qed.

(** C10. An empty-string regex is treated as absent.  [filter_lines] with
    [regex] the empty string gives what it gives with no regex: the substring
    filter for a non-empty term, the input list otherwise; the regex engine
    has no part in the result.  The route does the same: when [regex] is
    empty or missing, the response is built from [filter_lines] applied to
    the term alone. *)
Theorem empty_regex_is_absent (lines : list string) (term : option string)
  (case_sensitive : bool) :
  Search.filter_lines lines term (Some EmptyString) case_sensitive =
    Search.filter_lines lines term None case_sensitive /\
  Search.filter_lines lines term (Some EmptyString) case_sensitive =
    Return (if truthy term
            then filter (fun line =>
                           match term with
                           | Some t => if case_sensitive then str_in t line
                                       else str_in (str_lower t) (str_lower line)
                           | None => true
                           end) lines
            else lines) /\
  (forall filename t regex limit raw,
     truthy regex = false ->
     Routes.valid_request log_directory isfile filename t limit = true ->
     tail_async (os_path_join log_directory filename) limit = Return raw ->
     Routes.get_logs log_directory isfile tail_async filename t regex limit case_sensitive =
     (kept <- Search.filter_lines raw (Some t) None case_sensitive ;;
      Return (mkLogResponse kept (Z.of_nat (length kept)) filename))).
Proof.
  split; [|split].
  - apply filter_lines_empty_regex.
  - rewrite filter_lines_empty_regex. apply filter_lines_no_regex.
  - intros filename t regex limit raw Hr Hv Ht.
    rewrite (get_logs_valid _ _ _ _ _ Hv), Ht. cbn [bind].
    destruct regex as [[|b r]|]; [reflexivity | discriminate | reflexivity].
Qed.

End RouteFacts.

(** ** Log levels *)

Section LevelFacts.
Import Parsers.

Ltac case_keys s :=
  repeat match goal with
         | H : context [String.eqb ?k s] |- _ =>
             destruct (String.eqb_spec k s) as [<-|]
         end.

(** A numeric string is not the spelling of a level name. *)
Lemma numeric_not_name (s : string) (l : LogLevel) :
  lookup s numeric_levels = Some l ->
  lookup (lower s) (level_names ++ level_aliases)%list = None.
Proof.
  intros H. unfold lookup, numeric_levels in H.
  case_keys s; try discriminate; reflexivity.
Qed.

Lemma from_string_name (s name : string) (level : LogLevel) :
  In (name, level) (level_names ++ level_aliases)%list ->
  lower s = name -> from_string s = level.
Proof.
  intros Hin Hlow. unfold from_string.
  destruct (lookup s numeric_levels) as [l|] eqn:E.
  - apply numeric_not_name in E. rewrite Hlow in E. clear Hlow.
    simpl in Hin.
    repeat (destruct Hin as [Hin|Hin]; [inversion Hin; subst name; discriminate|]).
    contradiction.
  - rewrite Hlow. clear Hlow. simpl in Hin.
    repeat (destruct Hin as [Hin|Hin]; [inversion Hin; subst name level; reflexivity|]).
    contradiction.
Qed.

Lemma lookup_absent (key : string) (table : list (string * LogLevel)) :
  (forall k l, In (k, l) table -> key <> k) -> lookup key table = None.
Proof.
  induction table as [|[k l] table IH]; intros H; simpl; [reflexivity|].
  destruct (String.eqb_spec k key) as [->|_].
  - exfalso. apply (H key l); simpl; auto.
  - apply IH. intros k' l' Hin. apply (H k' l'). simpl. auto.
Qed.

(** C6. [from_string] maps the numeric strings ["0"] to ["7"] to the eight
    levels in severity order, reads level names and the alias [warn] without
    regard to case, and gives INFO for any input it does not recognize; the
    severities increase from EMERGENCY to DEBUG. *)
Theorem from_string_levels :
  map from_string ["0"; "1"; "2"; "3"; "4"; "5"; "6"; "7"] =
    [EMERGENCY; ALERT; CRITICAL; ERROR; WARNING; NOTICE; INFO; DEBUG] /\
  map severity [EMERGENCY; ALERT; CRITICAL; ERROR; WARNING; NOTICE; INFO; DEBUG] =
    [0; 1; 2; 3; 4; 5; 6; 7]%Z /\
  (forall s name level,
     In (name, level) level_names -> lower s = name -> from_string s = level) /\
  (forall s, lower s = "warn" -> from_string s = WARNING) /\
  (forall s,
     (forall k l, In (k, l) numeric_levels -> s <> k) ->
     (forall k l, In (k, l) (level_names ++ level_aliases)%list -> lower s <> k) ->
     from_string s = INFO) /\
  (severity EMERGENCY < severity ALERT < severity CRITICAL)%Z /\
  (severity CRITICAL < severity ERROR < severity WARNING)%Z /\
  (severity WARNING < severity NOTICE < severity INFO)%Z /\
  (severity INFO < severity DEBUG)%Z.
Proof.
  split; [reflexivity|]. split; [reflexivity|]. split; [|split; [|split]].
  - intros s name level Hin. apply from_string_name. apply in_or_app. now left.
  - intros s. apply from_string_name. apply in_or_app. right. simpl. auto.
  - intros s Hnum Hname. unfold from_string.
    now rewrite (lookup_absent s _ Hnum), (lookup_absent (lower s) _ Hname).
  - simpl. lia.
Qed.

End LevelFacts.

(** ** Format detection *)

Section DetectFacts.
Import Parsers.
Variable can_parse : Parser -> string -> bool.

Lemma tally_le (p : Parser) (sample : list string) :
  tally can_parse p sample <= length sample.
Proof. unfold tally. apply filter_length_le. Qed.

Lemma tally_all (p : Parser) (sample : list string) :
  (forall line, In line sample -> can_parse p line = true) ->
  tally can_parse p sample = length sample.
Proof.
  unfold tally. induction sample as [|l sample IH]; intros H; simpl; [reflexivity|].
  rewrite (H l) by (simpl; auto). simpl. f_equal. apply IH.
  intros line Hin. apply H. simpl. auto.
Qed.

Ltac compare_tallies :=
  cbn [leader];
  repeat match goal with
         | |- context [Nat.ltb ?a ?b] => destruct (Nat.ltb_spec a b)
         | H : context [Nat.ltb ?a ?b] |- _ => destruct (Nat.ltb_spec a b)
         end.

(** The leader has the highest tally, and is the earliest parser with it. *)
Lemma leader_max (sample : list string) (q : Parser) :
  let best := leader can_parse Json [Syslog; Nginx; Apache] sample in
  tally can_parse q sample <= tally can_parse best sample /\
  (tally can_parse q sample = tally can_parse best sample -> rank best <= rank q).
Proof.
  compare_tallies; destruct q; simpl rank; split; lia.
Qed.

Lemma detect_format_cons (line : string) (sample : list string) :
  detect_format can_parse (line :: sample) =
  let best := leader can_parse Json [Syslog; Nginx; Apache] (line :: sample) in
  if (length (line :: sample) <? 2 * tally can_parse best (line :: sample))%nat
  then Some best else None.
Proof. reflexivity. Qed.

(** C7. [detect_format] returns no parser for an empty sample and when no
    parser succeeds on more than half of the sample; when some parser does,
    it returns one, and the parser returned has a strict majority, no parser
    has more successes, and among the parsers with as many it comes first in
    the order Json, Syslog, Nginx, Apache.  A non-empty sample on which Json
    accepts every line yields Json. *)
Theorem detect_format_majority :
  detect_format can_parse [] = None /\
  (forall sample,
     (forall p, 2 * tally can_parse p sample <= length sample) ->
     detect_format can_parse sample = None) /\
  (forall sample p,
     detect_format can_parse sample = Some p ->
     length sample < 2 * tally can_parse p sample /\
     forall q,
       tally can_parse q sample <= tally can_parse p sample /\
       (tally can_parse q sample = tally can_parse p sample -> rank p <= rank q)) /\
  (forall sample p,
     length sample < 2 * tally can_parse p sample ->
     exists best, detect_format can_parse sample = Some best) /\
  (forall sample,
     sample <> [] ->
     (forall line, In line sample -> can_parse Json line = true) ->
     detect_format can_parse sample = Some Json).
Proof.
  split; [reflexivity|]. split; [|split; [|split]].
  - intros [|line sample] H; [reflexivity|]. rewrite detect_format_cons. cbv zeta.
    destruct (Nat.ltb_spec (length (line :: sample))
                (2 * tally can_parse (leader can_parse Json [Syslog; Nginx; Apache] (line :: sample)) (line :: sample))) as [Hlt|_];
      [|reflexivity].
    specialize (H (leader can_parse Json [Syslog; Nginx; Apache] (line :: sample))). lia.
  - intros [|line sample] p; [discriminate|]. rewrite detect_format_cons. cbv zeta.
    destruct (Nat.ltb_spec (length (line :: sample))
                (2 * tally can_parse (leader can_parse Json [Syslog; Nginx; Apache] (line :: sample)) (line :: sample))) as [Hlt|_];
      [|discriminate].
    intros [= <-]. split; [exact Hlt|]. intros q. apply leader_max.
  - intros [|line sample] p Hp; [simpl in Hp; lia|]. rewrite detect_format_cons. cbv zeta.
    destruct (leader_max (line :: sample) p) as [Hmax _].
    destruct (Nat.ltb_spec (length (line :: sample))
                (2 * tally can_parse (leader can_parse Json [Syslog; Nginx; Apache] (line :: sample)) (line :: sample))) as [_|Hge];
      [eauto | lia].
  - intros [|line sample] Hne Hall; [congruence|]. rewrite detect_format_cons. cbv zeta.
    pose proof (tally_all Json _ Hall) as Hj.
    pose proof (tally_le Syslog (line :: sample)).
    pose proof (tally_le Nginx (line :: sample)).
    pose proof (tally_le Apache (line :: sample)).
    assert (Hbest : leader can_parse Json [Syslog; Nginx; Apache] (line :: sample) = Json)
      by (compare_tallies; first [reflexivity | lia]).
    rewrite Hbest, Hj.
    destruct (Nat.ltb_spec (length (line :: sample)) (2 * length (line :: sample))) as [_|Hge];
      [reflexivity | simpl in Hge; lia].
Qed.

End DetectFacts.

(** ** The theorems at concrete inputs *)

Section Instances.
Import Search Reader Validation Parsers Routes.
Local Existing Instance Fragment.lib.

(** [test_regex_takes_precedence_over_term] *)
Lemma filter_lines_regex_precedence_witness :
  filter_lines ["error: failed"; "error: timeout"; "warning: slow"]
    (Some "warning") (Some "error:") true
  = Return ["error: failed"; "error: timeout"].
Proof.
  refine (proj1 (filter_lines_regex_precedence
                   ["error: failed"; "error: timeout"; "warning: slow"]
                   (Some "warning") "error:" true
                   (false, [Fragment.mkItem (Fragment.Lit "e") false;
                            Fragment.mkItem (Fragment.Lit "r") false;
                            Fragment.mkItem (Fragment.Lit "r") false;
                            Fragment.mkItem (Fragment.Lit "o") false;
                            Fragment.mkItem (Fragment.Lit "r") false;
                            Fragment.mkItem (Fragment.Lit ":") false])
                   _ _)).
  - discriminate.
  - reflexivity.
Defined.

(** As C3 is worded, an empty regex would take precedence too.  It compiles,
    yet [filter_lines] applies the term instead: the result is neither the
    lines the pattern matches nor independent of the term. *)
Lemma filter_lines_empty_regex_counterexample :
  exists pattern : Pattern,
    re_compile "" 0%Z = Return pattern /\
    filter_lines ["a"; "b"] (Some "a") (Some "") true = Return ["a"] /\
    filter_lines ["a"; "b"] (Some "a") (Some "") true <>
      Return (filter (fun line => re_search pattern line) ["a"; "b"]) /\
    filter_lines ["a"; "b"] (Some "a") (Some "") true <>
      filter_lines ["a"; "b"] None (Some "") true.
Proof.
  exists (false, []). repeat split; discriminate.
Qed.

(** A repeat count of [2^32]: [re.compile] fails, and not with [re.error]. *)
Lemma filter_lines_compile_failure_witness :
  re_compile "a{4294967296}" 0%Z = Raise (OtherError "OverflowError") /\
  filter_lines ["line 1"; "line 2"] None (Some "a{4294967296}") true
  = Raise (OtherError "OverflowError").
Proof.
  split; [reflexivity|].
  refine (filter_lines_compile_failure ["line 1"; "line 2"] None "a{4294967296}" true
            (OtherError "OverflowError") _).
  reflexivity.
Defined.

(** [test_substring_filter_case_sensitive] and its case-insensitive twin. *)
Lemma filter_lines_term_substring_witness :
  filter_lines ["Error: failed"; "error: timeout"; "ERROR: critical"]
    (Some "error") None false =
  filter_lines ["Error: failed"; "error: timeout"; "ERROR: critical"]
    (Some "ERROR") None false.
Proof.
  refine (proj2 (proj2 (filter_lines_term_substring
                          ["Error: failed"; "error: timeout"; "ERROR: critical"]
                          "error" _)) "ERROR" _ _).
  - discriminate.
  - discriminate.
  - reflexivity.
Defined.

(** [test_tail_limit], with a chunk of four characters. *)
Lemma tail_last_lines_witness :
  tail 4 (join_nl ["log 0"; "log 1"; "log 2"; "log 3"; "log 4"; "log 5"]) 3 =
  lastn 3 (logical_lines (join_nl ["log 0"; "log 1"; "log 2"; "log 3"; "log 4"; "log 5"])).
Proof.
  refine (proj1 (tail_last_lines 4 3
                   (join_nl ["log 0"; "log 1"; "log 2"; "log 3"; "log 4"; "log 5"])
                   _ _)); lia.
Defined.

(** [test_path_traversal_rejected] *)
Lemma is_filename_valid_rejects_witness :
  is_filename_valid "foo/../bar" = false.
Proof.
  apply (proj1 (is_filename_valid_rejects Demo.log_directory Demo.isfile Demo.tail_async)).
  exists "foo/", "/bar". split; [reflexivity|]. split; right.
  - exists "foo". reflexivity.
  - exists "bar". reflexivity.
Defined.

Lemma from_string_levels_witness :
  from_string "ERROR" = ERROR.
Proof.
  apply (proj1 (proj2 (proj2 from_string_levels)) "ERROR" "error" ERROR).
  - simpl. auto 10.
  - reflexivity.
Defined.

(** [test_detect_json_format], with the first-character check. *)
Lemma detect_format_majority_witness :
  detect_format Demo.can_parse ["{a}"; "{b}"; "{c}"] = Some Json.
Proof.
  apply (proj2 (proj2 (proj2 (proj2 (detect_format_majority Demo.can_parse))))).
  - discriminate.
  - intros line [<-|[<-|[<-|[]]]]; reflexivity.
Defined.

(** A request for the last three lines of [app.log] with term [error]. *)
Lemma get_logs_filters_after_tail_witness :
  get_logs Demo.log_directory Demo.isfile Demo.tail_async "app.log" "error" None 3 true =
  (kept <- filter_lines ["info: y"; "warning: slow"; "error: z"] (Some "error") None true ;;
   Return (mkLogResponse kept (Z.of_nat (length kept)) "app.log")).
Proof.
  refine (proj1 (get_logs_filters_after_tail
                   Demo.log_directory Demo.isfile Demo.tail_async
                   "app.log" "error" None 3 true
                   ["info: y"; "warning: slow"; "error: z"] _ _)).
  - reflexivity.
  - reflexivity.
Defined.

(** The same request with an empty regex. *)
Lemma empty_regex_is_absent_witness :
  get_logs Demo.log_directory Demo.isfile Demo.tail_async "app.log" "error" (Some "") 3 true =
  (kept <- filter_lines ["info: y"; "warning: slow"; "error: z"] (Some "error") None true ;;
   Return (mkLogResponse kept (Z.of_nat (length kept)) "app.log")).
Proof.
  apply (proj2 (proj2 (empty_regex_is_absent Demo.log_directory Demo.isfile Demo.tail_async
                         [] None true))).
  - reflexivity.
  - reflexivity.
  - reflexivity.
Defined.

(** *** The repository's unit tests, run on the embedding *)

(** [tests/unit/test_search.py] *)
Example test_no_filter :
  filter_lines ["line 1"; "line 2"; "line 3"] None None true
  = Return ["line 1"; "line 2"; "line 3"].
Proof. reflexivity. Qed.

Example test_substring_filter :
  filter_lines ["error: failed"; "info: ok"; "error: timeout"] (Some "error") None true
  = Return ["error: failed"; "error: timeout"].
Proof. reflexivity. Qed.

Example test_substring_filter_case_sensitive :
  filter_lines ["Error: failed"; "error: timeout"; "ERROR: critical"]
    (Some "error") None true
  = Return ["error: timeout"].
Proof. reflexivity. Qed.

Example test_substring_filter_case_insensitive :
  filter_lines ["Error: failed"; "error: timeout"; "ERROR: critical"]
    (Some "error") None false
  = Return ["Error: failed"; "error: timeout"; "ERROR: critical"].
Proof. reflexivity. Qed.

Example test_regex_filter :
  filter_lines ["error: connection failed"; "info: connected"; "error: timeout"]
    None (Some "error:.*failed") true
  = Return ["error: connection failed"].
Proof. reflexivity. Qed.

Example test_regex_filter_case_insensitive :
  filter_lines ["ERROR: failed"; "error: timeout"] None (Some "error:") false
  = Return ["ERROR: failed"; "error: timeout"].
Proof. reflexivity. Qed.

Example test_invalid_regex_returns_empty :
  filter_lines ["line 1"; "line 2"] None (Some "[invalid") true = Return [].
Proof. reflexivity. Qed.

(** The fragment on patterns at its edges, as [re] treats them. *)
Example fragment_pattern_errors :
  map (fun r => re_compile r 0%Z) ["[]"; "[^]"; "*a"; "a**"; "a{2}*"]
  = repeat (Raise re_error) 5.
Proof. reflexivity. Qed.

Example fragment_counted_repeat :
  filter_lines ["aa"; "xaaay"; "a.a"] None (Some "a{3}") true = Return ["xaaay"] /\
  re_compile "a{4294967295}" 0%Z = Raise (OtherError "OverflowError").
Proof. split; reflexivity. Qed.

Example test_empty_lines_preserved :
  filter_lines ["error"; ""; "error again"] (Some "error") None true
  = Return ["error"; "error again"].
Proof. reflexivity. Qed.

Example test_no_matches :
  filter_lines ["line 1"; "line 2"] (Some "nonexistent") None true = Return [].
Proof. reflexivity. Qed.

(** [tests/unit/test_reader.py], for several chunk sizes. *)
Example test_tail_basic :
  tail 5 (join_nl ["line 1"; "line 2"; "line 3"]) 3 = ["line 1"; "line 2"; "line 3"].
Proof. reflexivity. Qed.

Example test_tail_limit :
  map (fun chunk =>
         tail chunk
           (join_nl ["log 0"; "log 1"; "log 2"; "log 3"; "log 4";
                     "log 5"; "log 6"; "log 7"; "log 8"; "log 9"]) 5)
      [1; 3; 6; 7; 64]
  = repeat ["log 5"; "log 6"; "log 7"; "log 8"; "log 9"] 5.
Proof. reflexivity. Qed.

Example test_tail_empty_file : tail 64 [] 10 = [].
Proof. reflexivity. Qed.

Example test_tail_preserves_empty_lines :
  tail 2 (join_nl ["line 1"; ""; "line 3"]) 3 = ["line 1"; ""; "line 3"].
Proof. reflexivity. Qed.

Example tail_final_newline :
  tail 3 (list_ascii_of_string "a" ++ NL :: list_ascii_of_string "b" ++ [NL])%list 1
  = ["b"].
Proof. reflexivity. Qed.

(** [tests/unit/test_validation.py] *)
Example test_valid_filenames :
  map is_filename_valid ["syslog"; "auth.log"; "nginx/access.log"; "app.log.1"]
  = [true; true; true; true].
Proof. reflexivity. Qed.

Example test_path_traversal_rejected :
  map is_filename_valid ["../etc/passwd"; "foo/../bar"; ".."] = [false; false; false].
Proof. reflexivity. Qed.

Example test_absolute_paths_rejected :
  map is_filename_valid ["/etc/passwd"; "/var/log/syslog"] = [false; false].
Proof. reflexivity. Qed.

Example test_search_term_length :
  map is_search_term_valid [""; "error"] = [true; true] /\
  map is_limit_valid [1; 50; 1000; 0; -1; 1001; 10000]%Z
  = [true; true; true; false; false; false; false].
Proof. split; reflexivity. Qed.

(** [tests/unit/test_parsers.py], [TestLogLevel] *)
Example test_from_string_standard_names :
  map from_string ["error"; "ERROR"; "warn"; "warning"; "info"; "debug"]
  = [ERROR; ERROR; WARNING; WARNING; INFO; DEBUG].
Proof. reflexivity. Qed.

Example test_from_string_unrecognized :
  map from_string ["verbose"; ""; "08"] = [INFO; INFO; INFO].
Proof. reflexivity. Qed.

(** Two parsers that tie on every line: the earlier one is returned. *)
Example detect_format_tie :
  detect_format (fun p _ => match p with Nginx | Apache => true | _ => false end)
    ["x"; "y"] = Some Nginx.
Proof. reflexivity. Qed.

(** A leader without a majority is not returned. *)
Example detect_format_no_majority :
  detect_format Demo.can_parse ["{a}"; "Jan 1"; "plain"; "text"] = None.
Proof. reflexivity. Qed.

(** [tests/integration/test_api.py]: a request through the route. *)
Example test_route_term :
  get_logs Demo.log_directory Demo.isfile Demo.tail_async "app.log" "error" None 50 true
  = Return (mkLogResponse ["error: x"; "error: z"] 2 "app.log").
Proof. reflexivity. Qed.

Example test_route_limit_then_filter :
  get_logs Demo.log_directory Demo.isfile Demo.tail_async "app.log" "error" None 2 true
  = Return (mkLogResponse ["error: z"] 1 "app.log").
Proof. reflexivity. Qed.

Example test_route_invalid_filename :
  get_logs Demo.log_directory Demo.isfile Demo.tail_async "../etc/passwd" "" None 50 true
  = Raise (HTTPException 400 ERROR_INVALID_FILENAME).
Proof. reflexivity. Qed.

Example test_route_file_not_found :
  get_logs Demo.log_directory Demo.isfile Demo.tail_async "nonexistent" "" None 50 true
  = Raise (HTTPException 404 "File not found: /var/log/nonexistent does not exist").
Proof. reflexivity. Qed.

End Instances.

(** * Further properties of the code *)

(** ** [filter_lines] as a line-by-line selection *)

Lemma string_length_append (a b : string) :
  String.length (a ++ b) = String.length a + String.length b.
Proof. induction a as [|c a IH]; simpl; [reflexivity | now rewrite IH]. Qed.

Lemma occurs_length (t l : string) :
  occurs t l -> String.length t <= String.length l.
Proof. intros (pre & post & ->). rewrite !string_length_append. lia. Qed.

Lemma occurs_trans (t t' l : string) : occurs t t' -> occurs t' l -> occurs t l.
Proof.
  intros (a & b & ->) (pre & post & ->).
  exists (pre ++ a), (b ++ post). now rewrite !append_assoc.
Qed.

Lemma filter_none {A : Type} (l : list A) : filter (fun _ => false) l = [].
Proof. induction l; simpl; auto. Qed.

Lemma filter_idem {A : Type} (f : A -> bool) (l : list A) :
  filter f (filter f l) = filter f l.
Proof. apply forallb_filter_id, forallb_filter. Qed.

Section FilterExtras.
Context {lib : PythonLib}.
Import Search.

(** Whatever the arguments, [filter_lines] either applies one fixed test to
    every line, or fails with the exception [re.compile] raised. *)
Lemma filter_lines_uniform (term regex : option string) (case_sensitive : bool) :
  (exists keep : string -> bool,
     forall lines,
       filter_lines lines term regex case_sensitive = Return (filter keep lines)) \/
  (exists (e : exn) (r : string),
     e <> re_error /\ regex = Some r /\ r <> EmptyString /\
     re_compile r (if case_sensitive then 0%Z else IGNORECASE) = Raise e /\
     forall lines, filter_lines lines term regex case_sensitive = Raise e).
Proof.
  destruct regex as [[|b r]|].
  - left. destruct term as [[|a t]|].
    + exists (fun _ => true). intros. now rewrite filter_true.
    + eexists. intros. apply filter_lines_term; [discriminate | reflexivity].
    + exists (fun _ => true). intros. now rewrite filter_true.
  - destruct (re_compile (String b r) (if case_sensitive then 0%Z else IGNORECASE))
      as [p|e] eqn:Hc.
    + left. exists (fun line => re_search p line). intros.
      rewrite filter_lines_regex, Hc by discriminate. reflexivity.
    + destruct e as [|status detail|name].
      * left. exists (fun _ => false). intros.
        rewrite filter_lines_regex, Hc, filter_none by discriminate. reflexivity.
      * right. exists (HTTPException status detail), (String b r).
        repeat split; try discriminate; try assumption.
        intros. rewrite filter_lines_regex, Hc by discriminate. reflexivity.
      * right. exists (OtherError name), (String b r).
        repeat split; try discriminate; try assumption.
        intros. rewrite filter_lines_regex, Hc by discriminate. reflexivity.
  - left. destruct term as [[|a t]|].
    + exists (fun _ => true). intros. now rewrite filter_true.
    + eexists. intros. apply filter_lines_term; [discriminate | reflexivity].
    + exists (fun _ => true). intros. now rewrite filter_true.
Qed.

Lemma filter_lines_compile_error (lines : list string) (term : option string)
  (regex : string) (case_sensitive : bool) :
  re_compile regex (if case_sensitive then 0%Z else IGNORECASE) = Raise re_error ->
  filter_lines lines term (Some regex) case_sensitive = Return [].
Proof.
  intros Hc. rewrite filter_lines_regex by (eapply compile_error_nonempty; eassumption).
  now rewrite Hc.
Qed.

(** X1. What [filter_lines] returns is a selection of its input: the lines
    that pass one test, in their input order; it is never longer than the
    input and holds no line the input does not hold. *)
Theorem filter_lines_selection (lines out : list string) (term regex : option string)
  (case_sensitive : bool) :
  filter_lines lines term regex case_sensitive = Return out ->
  (exists keep : string -> bool, out = filter keep lines) /\
  length out <= length lines /\
  (forall line, In line out -> In line lines).
Proof.
  intros H.
  assert (Hsel : exists keep : string -> bool, out = filter keep lines).
  { destruct (filter_lines_uniform term regex case_sensitive)
      as [[keep Hk]|(e & r & _ & _ & _ & _ & He)].
    - exists keep. rewrite Hk in H. now inversion H.
    - rewrite He in H. discriminate. }
  split; [exact Hsel|]. destruct Hsel as [keep ->]. split.
  - apply filter_length_le.
  - intros line Hin. now apply filter_In in Hin.
Qed.

(** X2. [filter_lines] never raises [re.error]: anything it raises was
    raised by [re.compile] on a non-empty regex; with no regex, or an empty
    one, it always returns. *)
Theorem filter_lines_raises (lines : list string) (term regex : option string)
  (case_sensitive : bool) (e : exn) :
  filter_lines lines term regex case_sensitive = Raise e ->
  e <> re_error /\
  exists r, regex = Some r /\ r <> EmptyString /\
            re_compile r (if case_sensitive then 0%Z else IGNORECASE) = Raise e.
Proof.
  intros H.
  destruct (filter_lines_uniform term regex case_sensitive)
    as [[keep Hk]|(e' & r & Hne & Hr & Hr' & Hc & He)].
  - rewrite Hk in H. discriminate.
  - rewrite He in H. inversion H; subst e'. eauto.
Qed.

(** X3. Filtering is local to each line: the result for two lists put end to
    end is the two results put end to end. *)
Theorem filter_lines_app (front back : list string) (term regex : option string)
  (case_sensitive : bool) :
  filter_lines (front ++ back)%list term regex case_sensitive =
  (kept_front <- filter_lines front term regex case_sensitive ;;
   kept_back <- filter_lines back term regex case_sensitive ;;
   Return (kept_front ++ kept_back)%list).
Proof.
  destruct (filter_lines_uniform term regex case_sensitive)
    as [[keep Hk]|(e & r & _ & _ & _ & _ & He)].
  - rewrite !Hk, filter_app. reflexivity.
  - rewrite !He. reflexivity.
Qed.

(** X4. Filtering is idempotent: applying the same filter to its own result
    changes nothing. *)
Theorem filter_lines_idempotent (lines out : list string) (term regex : option string)
  (case_sensitive : bool) :
  filter_lines lines term regex case_sensitive = Return out ->
  filter_lines out term regex case_sensitive = Return out.
Proof.
  intros H.
  destruct (filter_lines_uniform term regex case_sensitive)
    as [[keep Hk]|(e & r & _ & _ & _ & _ & He)].
  - rewrite Hk in H. inversion H; subst out. now rewrite Hk, filter_idem.
  - rewrite He in H. discriminate.
Qed.

(** X5. A case-sensitive term search returns no line shorter than the term;
    in particular an empty line is never returned. *)
Theorem filter_lines_term_drops_short (lines out : list string) (term : string)
  (regex : option string) :
  term <> EmptyString -> truthy regex = false ->
  filter_lines lines (Some term) regex true = Return out ->
  forall line, In line out ->
    String.length term <= String.length line /\ line <> EmptyString.
Proof.
  intros Ht Hr H line Hin. rewrite filter_lines_term in H by assumption.
  inversion H; subst out. apply filter_In in Hin as [_ Hin].
  apply str_in_spec, occurs_length in Hin. split; [exact Hin|].
  intros ->. destruct term; [congruence | simpl in Hin; lia].
Qed.

(** X6. Narrowing a case-sensitive search: when [term] occurs in [term'],
    searching for [term'] in the lines found for [term] finds all that
    searching for [term'] in the input finds. *)
Theorem filter_lines_term_narrowing (lines : list string) (term term' : string) :
  term <> EmptyString -> occurs term term' ->
  filter_lines lines (Some term') None true =
  (found <- filter_lines lines (Some term) None true ;;
   filter_lines found (Some term') None true).
Proof.
  intros Ht Hocc.
  assert (Ht' : term' <> EmptyString).
  { intros ->. apply occurs_length in Hocc. destruct term; [congruence | simpl in Hocc; lia]. }
  rewrite (filter_lines_term lines term) by auto. cbn [bind].
  rewrite !filter_lines_term by auto. f_equal.
  induction lines as [|l lines IH]; [reflexivity|]. simpl.
  destruct (str_in term' l) eqn:E'.
  - assert (E : str_in term l = true).
    { apply str_in_spec. apply (occurs_trans term term' l Hocc). now apply str_in_spec. }
    rewrite E. simpl. rewrite E'. now f_equal.
  - destruct (str_in term l); simpl; [rewrite E'|]; exact IH.
Qed.

End FilterExtras.

(** ** The outcomes of [get_logs] *)

Section RouteExtras.
Context {lib : PythonLib}.
Variable log_directory : string.
Variable isfile : string -> bool.
Variable tail_async : string -> Z -> result (list string).
Import Validation Routes.

Lemma valid_request_guards (filename term : string) (limit : Z) :
  Routes.valid_request log_directory isfile filename term limit = true <->
  is_filename_valid filename = true /\
  char_in "/" filename = false /\ char_in "\" filename = false /\
  (str_truthy term = true -> is_search_term_valid term = true) /\
  is_limit_valid limit = true /\
  isfile (os_path_join log_directory filename) = true.
Proof.
  unfold Routes.valid_request.
  rewrite !andb_true_iff, !negb_true_iff, orb_false_iff, andb_false_iff, negb_false_iff.
  split.
  - intros [[[[H1 [H2 H3]] H4] H5] H6]. repeat split; auto.
    intros Ht. destruct H4; congruence.
  - intros (H1 & H2 & H3 & H4 & H5 & H6). repeat split; auto.
    destruct (str_truthy term); auto.
Qed.

(** A request that fails a guard is answered by an HTTP error. *)
Lemma get_logs_invalid (filename term : string) (regex : option string) (limit : Z)
  (case_sensitive : bool) :
  Routes.valid_request log_directory isfile filename term limit = false ->
  exists status detail,
    Routes.get_logs log_directory isfile tail_async filename term regex limit case_sensitive
    = Raise (HTTPException status detail).
Proof.
  unfold Routes.valid_request, Routes.get_logs. intros H.
  destruct (is_filename_valid filename); cbn [negb andb] in *; [|eauto].
  destruct (char_in "/" filename || char_in "\" filename); cbn [negb andb] in *; [eauto|].
  destruct (str_truthy term && negb (is_search_term_valid term)); cbn [negb andb] in *; [eauto|].
  destruct (is_limit_valid limit); cbn [negb andb] in *; [|eauto].
  rewrite H. cbn [negb]. eauto.
Qed.

(** X7. A response is produced only for a request that passed every guard:
    the file name holds no separator, the file exists, the reader returned,
    the lines are [filter_lines] of what it returned, the count is their
    number and the file name is the requested one. *)
Theorem get_logs_response (filename term : string) (regex : option string) (limit : Z)
  (case_sensitive : bool) (response : LogResponse) :
  Routes.get_logs log_directory isfile tail_async filename term regex limit case_sensitive
    = Return response ->
  Routes.valid_request log_directory isfile filename term limit = true /\
  char_in "/" filename = false /\ char_in "\" filename = false /\
  isfile (os_path_join log_directory filename) = true /\
  (exists raw,
     tail_async (os_path_join log_directory filename) limit = Return raw /\
     Search.filter_lines raw (Some term) regex case_sensitive = Return (lines response)) /\
  count response = Z.of_nat (length (lines response)) /\
  Routes.filename response = filename.
Proof.
  intros H.
  destruct (Routes.valid_request log_directory isfile filename term limit) eqn:Hv.
  - pose proof Hv as Hg. apply valid_request_guards in Hg as (_ & H2 & H3 & _ & _ & H6).
    rewrite (get_logs_valid _ _ _ _ _ _ _ _ Hv) in H.
    destruct (tail_async _ limit) as [raw|e]; [|discriminate]. cbn [bind] in H.
    destruct (Search.filter_lines raw (Some term) regex case_sensitive) as [kept|e] eqn:Hf;
      [|discriminate].
    cbn [bind] in H. inversion H; subst response. cbn.
    repeat split; auto. exists raw. now rewrite Hf.
  - destruct (get_logs_invalid filename term regex limit case_sensitive Hv)
      as (status & detail & Herr).
    congruence.
Qed.

(** X8. The guards are checked in the order file name, search term, limit,
    file existence, and each failure has its own answer: 400 with the
    file-name message, 400 with the search-term message, 400 with the limit
    message, 404 naming the path.  An over-long term is refused even when a
    regex is given. *)
Theorem get_logs_guard_order (filename term : string) (regex : option string)
  (limit : Z) (case_sensitive : bool) :
  (is_filename_valid filename = false \/
   char_in "/" filename || char_in "\" filename = true ->
   Routes.get_logs log_directory isfile tail_async filename term regex limit case_sensitive
   = Raise (HTTPException 400 ERROR_INVALID_FILENAME)) /\
  (is_filename_valid filename = true ->
   char_in "/" filename || char_in "\" filename = false ->
   (str_truthy term = true /\ is_search_term_valid term = false ->
    Routes.get_logs log_directory isfile tail_async filename term regex limit case_sensitive
    = Raise (HTTPException 400 ERROR_LONG_SEARCH_TERM)) /\
   (str_truthy term && negb (is_search_term_valid term) = false ->
    (is_limit_valid limit = false ->
     Routes.get_logs log_directory isfile tail_async filename term regex limit case_sensitive
     = Raise (HTTPException 400 ERROR_INVALID_LIMIT)) /\
    (is_limit_valid limit = true ->
     isfile (os_path_join log_directory filename) = false ->
     Routes.get_logs log_directory isfile tail_async filename term regex limit case_sensitive
     = Raise (HTTPException 404
                ("File not found: " ++ os_path_join log_directory filename ++
                 " does not exist"))))).
Proof.
  unfold Routes.get_logs. split.
  - intros [H|H]; rewrite H; [reflexivity|].
    destruct (is_filename_valid filename); reflexivity.
  - intros H1 H2. rewrite H1, H2. cbn [negb]. split.
    + intros [Ht Hs]. rewrite Ht, Hs. reflexivity.
    + intros H3. rewrite H3. split.
      * intros H4. rewrite H4. reflexivity.
      * intros H4 H5. rewrite H4, H5. reflexivity.
Qed.

(** X9. No file is touched for a request that fails a guard on its
    parameters: the answer does not depend on the file system or on the
    reader; and for a missing file the reader is not called. *)
Theorem get_logs_no_file_access (filename term : string) (regex : option string)
  (limit : Z) (case_sensitive : bool)
  (isfile' : string -> bool) (tail_async' : string -> Z -> result (list string)) :
  (is_filename_valid filename = false \/
   char_in "/" filename || char_in "\" filename = true \/
   (str_truthy term = true /\ is_search_term_valid term = false) \/
   is_limit_valid limit = false ->
   Routes.get_logs log_directory isfile tail_async filename term regex limit case_sensitive =
   Routes.get_logs log_directory isfile' tail_async' filename term regex limit case_sensitive) /\
  (isfile (os_path_join log_directory filename) = false ->
   Routes.get_logs log_directory isfile tail_async filename term regex limit case_sensitive =
   Routes.get_logs log_directory isfile tail_async' filename term regex limit case_sensitive).
Proof.
  unfold Routes.get_logs. split.
  - intros H.
    destruct (is_filename_valid filename); cbn [negb]; [|reflexivity].
    destruct (char_in "/" filename || char_in "\" filename); [reflexivity|].
    destruct (str_truthy term); cbn [andb]; [|].
    + destruct (is_search_term_valid term); cbn [negb]; [|reflexivity].
      destruct (is_limit_valid limit); cbn [negb]; [|reflexivity].
      destruct H as [H|[H|[[_ H]|H]]]; discriminate.
    + destruct (is_limit_valid limit); cbn [negb]; [|reflexivity].
      destruct H as [H|[H|[[H _]|H]]]; discriminate.
  - intros H. rewrite H. cbn [negb].
    destruct (is_filename_valid filename); cbn [negb]; [|reflexivity].
    destruct (char_in "/" filename || char_in "\" filename); [reflexivity|].
    destruct (str_truthy term && negb (is_search_term_valid term)); [reflexivity|].
    destruct (is_limit_valid limit); reflexivity.
Qed.

(** X10. At the route, a regex on which [re.compile] raises [re.error] is not
    an error for the client: the answer is an empty list of lines and a count
    of zero.  Any other exception of [re.compile] leaves [get_logs] as it
    is. *)
Theorem get_logs_invalid_regex (filename term regex : string) (limit : Z)
  (case_sensitive : bool) (raw : list string) :
  Routes.valid_request log_directory isfile filename term limit = true ->
  tail_async (os_path_join log_directory filename) limit = Return raw ->
  (re_compile regex (if case_sensitive then 0%Z else IGNORECASE) = Raise re_error ->
   Routes.get_logs log_directory isfile tail_async filename term (Some regex) limit
     case_sensitive
   = Return (mkLogResponse [] 0 filename)) /\
  (forall e,
     e <> re_error ->
     re_compile regex (if case_sensitive then 0%Z else IGNORECASE) = Raise e ->
     Routes.get_logs log_directory isfile tail_async filename term (Some regex) limit
       case_sensitive
     = Raise e).
Proof.
  intros Hv Ht. rewrite (get_logs_valid _ _ _ _ _ _ _ _ Hv), Ht. cbn [bind]. split.
  - intros Hc.
    now rewrite (filter_lines_compile_error raw (Some term) regex case_sensitive Hc).
  - intros e Hne Hc.
    rewrite filter_lines_regex by (eapply compile_error_nonempty; eassumption).
    rewrite Hc. destruct e; [congruence | reflexivity | reflexivity].
Qed.

Lemma get_logs_return_valid (filename term : string) (regex : option string)
  (limit : Z) (case_sensitive : bool) (response : LogResponse) :
  Routes.get_logs log_directory isfile tail_async filename term regex limit case_sensitive
    = Return response ->
  Routes.valid_request log_directory isfile filename term limit = true.
Proof.
  intros H.
  destruct (Routes.valid_request log_directory isfile filename term limit) eqn:Hv;
    [reflexivity|].
  destruct (get_logs_invalid filename term regex limit case_sensitive Hv)
    as (status & detail & Herr).
  congruence.
Qed.

(** X11. An exception of the reader is passed on as it is: it is neither
    turned into an HTTP error nor into an empty result. *)
Theorem get_logs_reader_error (filename term : string) (regex : option string)
  (limit : Z) (case_sensitive : bool) (e : exn) :
  Routes.valid_request log_directory isfile filename term limit = true ->
  tail_async (os_path_join log_directory filename) limit = Raise e ->
  Routes.get_logs log_directory isfile tail_async filename term regex limit case_sensitive
  = Raise e.
Proof.
  intros Hv Ht. now rewrite (get_logs_valid _ _ _ _ _ _ _ _ Hv), Ht.
Qed.

(** X12. With a non-empty regex the term plays no part in the answer: two
    requests that differ only in their (admissible) terms get the same
    answer. *)
Theorem get_logs_regex_ignores_term (filename term term' regex : string) (limit : Z)
  (case_sensitive : bool) :
  regex <> EmptyString ->
  Routes.valid_request log_directory isfile filename term limit = true ->
  Routes.valid_request log_directory isfile filename term' limit = true ->
  Routes.get_logs log_directory isfile tail_async filename term (Some regex) limit case_sensitive =
  Routes.get_logs log_directory isfile tail_async filename term' (Some regex) limit case_sensitive.
Proof.
  intros Hr Hv Hv'.
  rewrite (get_logs_valid _ _ _ _ _ _ _ _ Hv), (get_logs_valid _ _ _ _ _ _ _ _ Hv').
  destruct (tail_async _ limit) as [raw|e]; [|reflexivity]. cbn [bind].
  now rewrite !filter_lines_regex by assumption.
Qed.

(** X13. The count of a response is at most the number of lines the reader
    returned; when the reader keeps to the limit, so does the response. *)
Theorem get_logs_count_bound (filename term : string) (regex : option string)
  (limit : Z) (case_sensitive : bool) (raw : list string) (response : LogResponse) :
  tail_async (os_path_join log_directory filename) limit = Return raw ->
  Routes.get_logs log_directory isfile tail_async filename term regex limit case_sensitive
    = Return response ->
  (0 <= count response <= Z.of_nat (length raw))%Z /\
  ((Z.of_nat (length raw) <= limit)%Z -> (count response <= limit)%Z).
Proof.
  intros Ht H. pose proof (get_logs_return_valid _ _ _ _ _ _ H) as Hv.
  rewrite (get_logs_valid _ _ _ _ _ _ _ _ Hv), Ht in H. cbn [bind] in H.
  destruct (filter_lines_uniform (Some term) regex case_sensitive)
    as [[keep Hk]|(e & r & _ & _ & _ & _ & He)].
  - rewrite Hk in H. cbn [bind] in H. inversion H; subst response. cbn [count].
    pose proof (filter_length_le keep raw). lia.
  - rewrite He in H. discriminate.
Qed.

(** X14. Every exception of [get_logs] is one of: the four HTTP errors of
    its guards, an exception of the reader, or an exception other than
    [re.error] raised by [re.compile] on a non-empty regex. *)
Theorem get_logs_errors (filename term : string) (regex : option string)
  (limit : Z) (case_sensitive : bool) (e : exn) :
  Routes.get_logs log_directory isfile tail_async filename term regex limit case_sensitive
    = Raise e ->
  e = HTTPException 400 ERROR_INVALID_FILENAME \/
  e = HTTPException 400 ERROR_LONG_SEARCH_TERM \/
  e = HTTPException 400 ERROR_INVALID_LIMIT \/
  e = HTTPException 404
        ("File not found: " ++ os_path_join log_directory filename ++ " does not exist") \/
  tail_async (os_path_join log_directory filename) limit = Raise e \/
  (e <> re_error /\
   exists r, regex = Some r /\ r <> EmptyString /\
             re_compile r (if case_sensitive then 0%Z else IGNORECASE) = Raise e).
Proof.
  unfold Routes.get_logs.
  destruct (is_filename_valid filename); cbn [negb];
    [|intros [= <-]; auto].
  destruct (char_in "/" filename || char_in "\" filename);
    [intros [= <-]; auto|].
  destruct (str_truthy term && negb (is_search_term_valid term));
    [intros [= <-]; auto|].
  destruct (is_limit_valid limit); cbn [negb];
    [|intros [= <-]; auto].
  destruct (isfile (os_path_join log_directory filename)); cbn [negb];
    [|intros [= <-]; auto 6].
  destruct (tail_async _ limit) as [raw|e'] eqn:Ht; cbn [bind];
    [|intros [= <-]; auto 6].
  rewrite route_dispatch.
  destruct (filter_lines_uniform (Some term) regex case_sensitive)
    as [[keep Hk]|(e' & r & Hne & Hr & Hr' & Hc & He)].
  - rewrite Hk. discriminate.
  - rewrite He. cbn [bind]. intros [= <-]. do 5 right. eauto.
Qed.

(** X15. With an empty term and no regex (or an empty one) the response
    carries the reader's lines unchanged. *)
Theorem get_logs_no_filter (filename : string) (regex : option string) (limit : Z)
  (case_sensitive : bool) (raw : list string) :
  truthy regex = false ->
  Routes.valid_request log_directory isfile filename EmptyString limit = true ->
  tail_async (os_path_join log_directory filename) limit = Return raw ->
  Routes.get_logs log_directory isfile tail_async filename EmptyString regex limit case_sensitive
  = Return (mkLogResponse raw (Z.of_nat (length raw)) filename).
Proof.
  intros Hr Hv Ht. rewrite (get_logs_valid _ _ _ _ _ _ _ _ Hv), Ht. cbn [bind].
  destruct regex as [[|b r]|]; [reflexivity | discriminate | reflexivity].
Qed.

End RouteExtras.

(** ** The log-file fixture of the tests *)

Section FixtureFacts.
Import Reader Conftest.

Lemma write_lines_from (total start : Z) (lines : list string) (written : list ascii) :
  (start + Z.of_nat (length lines) = total)%Z ->
  fold_left (write_line total) (enumerate_from start lines) written =
  (written ++ join_nl lines)%list.
Proof.
  revert start written. induction lines as [|l lines IH]; intros start written Hlen.
  - simpl. now rewrite app_nil_r.
  - cbn [enumerate_from fold_left write_line]. destruct lines as [|l2 lines].
    + cbn [length] in Hlen.
      replace (start =? total - 1)%Z with true by (symmetry; apply Z.eqb_eq; lia).
      reflexivity.
    + replace (start =? total - 1)%Z with false
        by (symmetry; apply Z.eqb_neq; cbn [length] in Hlen; lia).
      rewrite IH by (cbn [length] in *; lia).
      change (join_nl (l :: l2 :: lines))
        with (list_ascii_of_string l ++ NL :: join_nl (l2 :: lines))%list.
      rewrite <- !app_assoc. reflexivity.
Qed.

(** X16. The file the fixture writes holds the lines joined by single
    newlines, with no newline after the last one; it is the file the reader
    tests write with [join]. *)
Theorem create_log_file_join (lines : list string) :
  create_log_file lines = join_nl lines.
Proof.
  unfold create_log_file. now rewrite write_lines_from by lia.
Qed.

End FixtureFacts.

(** ** The further properties at concrete inputs *)

Section ExtraInstances.
Import Search Reader Validation Parsers Routes.
Local Existing Instance Fragment.lib.

Lemma filter_lines_selection_witness :
  length ["error: failed"; "error: timeout"]
  <= length ["error: failed"; "info: ok"; "error: timeout"].
Proof.
  refine (proj1 (proj2 (filter_lines_selection
                          ["error: failed"; "info: ok"; "error: timeout"]
                          ["error: failed"; "error: timeout"]
                          (Some "error") None true _))).
  reflexivity.
Defined.

(** A repeat count of [2^32] makes [re.compile] raise [OverflowError]. *)
Lemma filter_lines_raises_witness :
  filter_lines ["x"] None (Some "a{4294967296}") true = Raise (OtherError "OverflowError") /\
  OtherError "OverflowError" <> re_error.
Proof.
  split; [reflexivity|].
  refine (proj1 (filter_lines_raises ["x"] None (Some "a{4294967296}") true
                   (OtherError "OverflowError") _)).
  reflexivity.
Defined.

Lemma filter_lines_idempotent_witness :
  filter_lines ["ERROR: failed"; "error: timeout"] None (Some "err.*:") false
  = Return ["ERROR: failed"; "error: timeout"].
Proof.
  refine (filter_lines_idempotent
            ["ERROR: failed"; "info: ok"; "error: timeout"]
            ["ERROR: failed"; "error: timeout"] None (Some "err.*:") false _).
  reflexivity.
Defined.

(** [test_empty_lines_preserved]: the empty line is not among the results. *)
Lemma filter_lines_term_drops_short_witness :
  String.length "error" <= String.length "error again" /\ "error again" <> "".
Proof.
  refine (filter_lines_term_drops_short
            ["error"; ""; "error again"] ["error"; "error again"] "error" None
            _ _ _ "error again" _).
  - discriminate.
  - reflexivity.
  - reflexivity.
  - simpl. auto.
Defined.

Lemma filter_lines_term_narrowing_witness :
  filter_lines ["error: failed"; "err 5"; "info"] (Some "error") None true =
  (found <- filter_lines ["error: failed"; "err 5"; "info"] (Some "err") None true ;;
   filter_lines found (Some "error") None true).
Proof.
  refine (filter_lines_term_narrowing ["error: failed"; "err 5"; "info"] "err" "error" _ _).
  - discriminate.
  - exists "", "or". reflexivity.
Defined.

Lemma get_logs_response_witness :
  valid_request Demo.log_directory Demo.isfile "app.log" "error" 50 = true.
Proof.
  refine (proj1 (get_logs_response Demo.log_directory Demo.isfile Demo.tail_async
                   "app.log" "error" None 50 true
                   (mkLogResponse ["error: x"; "error: z"] 2 "app.log") _)).
  reflexivity.
Defined.

(** [test_long_search_term], with a regex given as well. *)
Lemma get_logs_guard_order_witness :
  get_logs Demo.log_directory Demo.isfile Demo.tail_async "app.log"
    (String.concat "" (repeat "a" 101)) (Some "error:") 50 true
  = Raise (HTTPException 400 ERROR_LONG_SEARCH_TERM).
Proof.
  refine (proj1 (proj2 (get_logs_guard_order
                          Demo.log_directory Demo.isfile Demo.tail_async "app.log"
                          (String.concat "" (repeat "a" 101)) (Some "error:") 50 true)
                   _ _) _).
  - reflexivity.
  - reflexivity.
  - split; reflexivity.
Defined.

Lemma get_logs_no_file_access_witness :
  get_logs Demo.log_directory Demo.isfile Demo.tail_async "nginx/access.log" "" None 50 true =
  get_logs Demo.log_directory (fun _ => true) (fun _ _ => Return ["secret"])
    "nginx/access.log" "" None 50 true.
Proof.
  refine (proj1 (get_logs_no_file_access
                   Demo.log_directory Demo.isfile Demo.tail_async
                   "nginx/access.log" "" None 50 true
                   (fun _ => true) (fun _ _ => Return ["secret"])) _).
  right. left. reflexivity.
Defined.

Lemma get_logs_invalid_regex_witness :
  get_logs Demo.log_directory Demo.isfile Demo.tail_async "app.log" "" (Some "[invalid") 50 true
  = Return (mkLogResponse [] 0 "app.log") /\
  get_logs Demo.log_directory Demo.isfile Demo.tail_async "app.log" "" (Some "a{4294967296}")
    50 true
  = Raise (OtherError "OverflowError").
Proof.
  split.
  - refine (proj1 (get_logs_invalid_regex Demo.log_directory Demo.isfile Demo.tail_async
                     "app.log" "" "[invalid" 50 true
                     ["error: x"; "info: y"; "warning: slow"; "error: z"] _ _) _);
      reflexivity.
  - refine (proj2 (get_logs_invalid_regex Demo.log_directory Demo.isfile Demo.tail_async
                     "app.log" "" "a{4294967296}" 50 true
                     ["error: x"; "info: y"; "warning: slow"; "error: z"] _ _)
              (OtherError "OverflowError") _ _);
      first [reflexivity | discriminate].
Defined.

Lemma get_logs_reader_error_witness :
  get_logs Demo.log_directory Demo.isfile (fun _ _ => Raise (OtherError "PermissionError"))
    "app.log" "error" None 50 true
  = Raise (OtherError "PermissionError").
Proof.
  refine (get_logs_reader_error Demo.log_directory Demo.isfile
            (fun _ _ => Raise (OtherError "PermissionError"))
            "app.log" "error" None 50 true (OtherError "PermissionError") _ _);
    reflexivity.
Defined.

Lemma get_logs_regex_ignores_term_witness :
  get_logs Demo.log_directory Demo.isfile Demo.tail_async "app.log" "warning" (Some "error:") 50 true =
  get_logs Demo.log_directory Demo.isfile Demo.tail_async "app.log" "" (Some "error:") 50 true.
Proof.
  refine (get_logs_regex_ignores_term Demo.log_directory Demo.isfile Demo.tail_async
            "app.log" "warning" "" "error:" 50 true _ _ _).
  - discriminate.
  - reflexivity.
  - reflexivity.
Defined.

Lemma get_logs_count_bound_witness :
  (0 <= 1 <= 2)%Z /\ ((2 <= 2)%Z -> (1 <= 2)%Z).
Proof.
  refine (get_logs_count_bound Demo.log_directory Demo.isfile Demo.tail_async
            "app.log" "error" None 2 true ["warning: slow"; "error: z"]
            (mkLogResponse ["error: z"] 1 "app.log") _ _);
    reflexivity.
Defined.

Lemma get_logs_errors_witness :
  get_logs Demo.log_directory Demo.isfile Demo.tail_async "app.log" ""
    (Some "a{4294967296}") 50 true
  = Raise (OtherError "OverflowError") /\
  (OtherError "OverflowError" = HTTPException 400 ERROR_INVALID_FILENAME \/
   OtherError "OverflowError" = HTTPException 400 ERROR_LONG_SEARCH_TERM \/
   OtherError "OverflowError" = HTTPException 400 ERROR_INVALID_LIMIT \/
   OtherError "OverflowError" =
     HTTPException 404
       ("File not found: " ++ os_path_join Demo.log_directory "app.log" ++ " does not exist") \/
   Demo.tail_async (os_path_join Demo.log_directory "app.log") 50
     = Raise (OtherError "OverflowError") \/
   (OtherError "OverflowError" <> re_error /\
    exists r, Some "a{4294967296}" = Some r /\ r <> "" /\
              re_compile r 0%Z = Raise (OtherError "OverflowError"))).
Proof.
  split; [reflexivity|].
  refine (get_logs_errors Demo.log_directory Demo.isfile Demo.tail_async
            "app.log" "" (Some "a{4294967296}") 50 true (OtherError "OverflowError") _).
  reflexivity.
Defined.

(** [test_default_parameters] *)
Lemma get_logs_no_filter_witness :
  get_logs Demo.log_directory Demo.isfile Demo.tail_async "app.log" "" None 2 true
  = Return (mkLogResponse ["warning: slow"; "error: z"] 2 "app.log").
Proof.
  refine (get_logs_no_filter Demo.log_directory Demo.isfile Demo.tail_async
            "app.log" None 2 true ["warning: slow"; "error: z"] _ _ _);
    reflexivity.
Defined.

(** The fixture on the lines of [test_multi_line_with_empty]. *)
Example create_log_file_example :
  Conftest.create_log_file ["test log line 1"; ""; "test log line 2"]
  = (list_ascii_of_string "test log line 1" ++ [NL; NL]
     ++ list_ascii_of_string "test log line 2")%list.
Proof. reflexivity. Qed.

End ExtraInstances.
